(** * Specification check of zappr: a shallow embedding of
      [src/server/checks/Specification.js] and the properties of its
      rule evaluators, event gate and orchestrator.

    JavaScript strings are sequences of UTF-16 code units, [length] counts
    code units, and the regular expressions of the source carry no [u]
    flag, so they too work on code units.  Strings are therefore lists of
    code units ([N]).

    The embedding is typed: titles, bodies and templates are strings, the
    switches of the configuration are booleans and its thresholds are
    integers, each of them possibly absent.  The hosting service is a
    parameter; the calls made to it are recorded in the order they are
    issued.  The logger is not a collaborator of interest: [info] leaves
    no record, but what building its argument can throw is kept. *)

From Stdlib Require Import List ZArith NArith Bool Lia Arith String Ascii DecimalString.
Import ListNotations.

Set Implicit Arguments.

(* ================================================================== *)
(** ** JavaScript strings *)

Definition code_unit := N.
Definition jsstring := list code_unit.

(** An ASCII literal of the source as a JavaScript string. *)
Definition js (s : string) : jsstring :=
  List.map N_of_ascii (list_ascii_of_string s).

Definition jsstring_eqb (a b : jsstring) : bool :=
  if list_eq_dec N.eq_dec a b then true else false.

(** [str.length] *)
Definition js_length (s : jsstring) : Z := Z.of_nat (List.length s).

(** Number to string conversion of a template literal: plain decimal.
    This is what the engine prints for a safe integer (magnitude at most
    2^53 - 1), which every length of a string is.  A Number holds larger
    integers only up to rounding and prints them in exponent form from
    10^21 on; that form is not modelled, so the text of a message is
    stated only for safe integers. *)
Definition number_to_string (z : Z) : jsstring :=
  js (NilZero.string_of_int (Z.to_int z)).

(** [Number.isSafeInteger], on integers. *)
Definition is_safe_integer (z : Z) : Prop :=
  (Z.abs z <= 9007199254740991)%Z.

(** WhiteSpace and LineTerminator of ECMAScript: what [String.prototype.trim]
    strips and what the class [\s] matches. *)
Definition is_whitespace (c : code_unit) : bool :=
  ((9 <=? c) && (c <=? 13) || (c =? 32) || (c =? 160) || (c =? 5760)
   || (8192 <=? c) && (c <=? 8202) || (c =? 8232) || (c =? 8233)
   || (c =? 8239) || (c =? 8287) || (c =? 12288) || (c =? 65279))%N.

Fixpoint trim_start (s : jsstring) : jsstring :=
  match s with
  | c :: s' => if is_whitespace c then trim_start s' else s
  | [] => []
  end.

(** [str.trim()] *)
Definition trim (s : jsstring) : jsstring :=
  rev (trim_start (rev (trim_start s))).

(** [str.split(sep)] for a separator of one code unit: the pieces between
    the occurrences of [sep]; always at least one piece. *)
Fixpoint split (sep : code_unit) (s : jsstring) : list jsstring :=
  match s with
  | [] => [[]]
  | c :: s' =>
      if (c =? sep)%N then [] :: split sep s'
      else match split sep s' with
           | tok :: toks => (c :: tok) :: toks
           | [] => [[c]]
           end
  end.

Definition SPACE : code_unit := 32%N.

(* ================================================================== *)
(** ** Regular expressions

    The two patterns of the source are only ever used through
    [RegExp.prototype.test], on patterns without the [g] flag: [test] is
    then a pure function of the pattern and the string, true exactly when
    the pattern matches at some start position.  Which of several matches
    the backtracking engine would report does not matter, so the matcher
    below computes, for a start position, the set of positions at which a
    match of the pattern can end. *)

Inductive class_item : Type :=
| CChar (c : code_unit)            (* a literal character *)
| CRange (lo hi : code_unit)       (* lo-hi *)
| CWord                            (* \w *)
| CDigit                           (* \d *)
| CSpace.                          (* \s *)

Inductive regex : Type :=
| REmpty
| RClass (negated : bool) (items : list class_item)
| RCat (a b : regex)
| RAlt (a b : regex)
| RStar (a : regex)
| RBol                             (* ^ *)
| REol                             (* $ *)
| RWordB.                          (* \b *)

Record RegExp : Type := mkRegExp { pattern : regex; ignoreCase : bool }.

Definition cu (a : ascii) : code_unit := N_of_ascii a.

(** Derived forms. *)
Definition RChar (a : ascii) : regex := RClass false [CChar (cu a)].
Definition RPlus (a : regex) : regex := RCat a (RStar a).
Definition ROpt (a : regex) : regex := RAlt a REmpty.

Fixpoint RExactly (n : nat) (a : regex) : regex :=
  match n with
  | 0 => REmpty
  | S k => RCat a (RExactly k a)
  end.

Fixpoint RUpTo (n : nat) (a : regex) : regex :=
  match n with
  | 0 => REmpty
  | S k => ROpt (RCat a (RUpTo k a))
  end.

(** [a{lo,hi}] *)
Definition RRepeat (lo hi : nat) (a : regex) : regex :=
  RCat (RExactly lo a) (RUpTo (hi - lo) a).

Fixpoint RSeq (rs : list regex) : regex :=
  match rs with
  | [] => REmpty
  | [r] => r
  | r :: rs' => RCat r (RSeq rs')
  end.

Definition in_range (lo hi c : code_unit) : bool := ((lo <=? c) && (c <=? hi))%N.
Arguments in_range (lo hi c)%_N_scope.

Definition is_digit (c : code_unit) : bool := in_range 48 57 c.
Definition is_upper (c : code_unit) : bool := in_range 65 90 c.
Definition is_lower (c : code_unit) : bool := in_range 97 122 c.

(** [\w]: the 63 word characters. *)
Definition is_word_char (c : code_unit) : bool :=
  is_lower c || is_upper c || is_digit c || (c =? 95)%N.

(** Canonicalize of a pattern with flag [i] and without flag [u].  The
    engine upper-cases a code unit unless that would turn a non-ASCII code
    unit into an ASCII one; on ASCII this is the map below.  The only
    non-ASCII members of the classes of the source are quotation marks and
    spaces, which have no case and are the upper case of nothing, so the
    map is taken as the identity outside ASCII. *)
Definition canonicalize (c : code_unit) : code_unit :=
  if is_lower c then (c - 32)%N else c.

Definition uncanonicalize (c : code_unit) : code_unit :=
  if is_upper c then (c + 32)%N else c.

Definition item_matches (icase : bool) (it : class_item) (c : code_unit) : bool :=
  match it with
  | CChar a =>
      if icase then (canonicalize a =? canonicalize c)%N else (a =? c)%N
  | CRange lo hi =>
      if icase
      then in_range lo hi (canonicalize c) || in_range lo hi (uncanonicalize (canonicalize c))
      else in_range lo hi c
  | CWord => is_word_char c
  | CDigit => is_digit c
  | CSpace => is_whitespace c
  end.

Definition class_matches (icase negated : bool) (items : list class_item)
    (c : code_unit) : bool :=
  xorb negated (existsb (fun it => item_matches icase it c) items).

(** Sets of positions, as lists without repetition. *)
Definition add (j : nat) (l : list nat) : list nat :=
  if existsb (Nat.eqb j) l then l else j :: l.

Definition union (l1 l2 : list nat) : list nat := fold_right add l1 l2.

(** Positions reached from [i] by one iteration that consumes input: the
    engine rejects an empty iteration of a quantified group. *)
Definition progress (step : nat -> list nat) (i : nat) : list nat :=
  filter (fun j => i <? j) (step i).

(** The positions reached by iterating [step]: since an iteration moves
    forward, one pass over the positions [p], [p+1], ... in increasing
    order, expanding those already reached, finds them all. *)
Fixpoint sweep (step : nat -> list nat) (n p : nat) (reach : list nat) : list nat :=
  match n with
  | 0 => reach
  | S n' =>
      sweep step n' (S p)
        (if existsb (Nat.eqb p) reach then union reach (progress step p) else reach)
  end.

Section Matcher.
Variable icase : bool.
Variable input : jsstring.

Definition is_word_at (i : nat) : bool :=
  match nth_error input i with
  | Some c => is_word_char c
  | None => false
  end.

(** [\b]: exactly one of the characters before and at [i] is a word
    character; outside the string counts as not a word character. *)
Definition at_word_boundary (i : nat) : bool :=
  xorb (match i with 0 => false | S j => is_word_at j end) (is_word_at i).

(** The end positions of the matches of [r] that start at [i]. *)
Fixpoint match_from (r : regex) (i : nat) : list nat :=
  match r with
  | REmpty => [i]
  | RClass negated items =>
      match nth_error input i with
      | Some c => if class_matches icase negated items c then [S i] else []
      | None => []
      end
  | RCat a b =>
      fold_right (fun j acc => union acc (match_from b j)) [] (match_from a i)
  | RAlt a b => union (match_from a i) (match_from b i)
  | RStar a => sweep (match_from a) (List.length input - i) i [i]
  | RBol => if i =? 0 then [i] else []
  | REol => if i =? List.length input then [i] else []
  | RWordB => if at_word_boundary i then [i] else []
  end.

(** What the matcher computes, as a relation: [matches r i j] when [r]
    matches the code units from position [i] up to position [j]. *)
Inductive matches : regex -> nat -> nat -> Prop :=
| M_empty i : matches REmpty i i
| M_class negated items i c :
    nth_error input i = Some c ->
    class_matches icase negated items c = true ->
    matches (RClass negated items) i (S i)
| M_cat a b i j k : matches a i j -> matches b j k -> matches (RCat a b) i k
| M_alt_l a b i j : matches a i j -> matches (RAlt a b) i j
| M_alt_r a b i j : matches b i j -> matches (RAlt a b) i j
| M_star_nil a i : matches (RStar a) i i
| M_star_step a i j k :
    matches a i j -> i < j -> matches (RStar a) j k -> matches (RStar a) i k
| M_bol : matches RBol 0 0
| M_eol : matches REol (List.length input) (List.length input)
| M_wordb i : at_word_boundary i = true -> matches RWordB i i.
End Matcher.

(** [re.test(str)] for a pattern without the [g] flag. *)
Definition test (re : RegExp) (str : jsstring) : bool :=
  existsb (fun i => match match_from (ignoreCase re) str (pattern re) i with
                    | [] => false
                    | _ :: _ => true
                    end)
          (seq 0 (S (List.length str))).

(* ================================================================== *)
(** ** Constants of the module *)

Definition ACTIONS : list jsstring :=
  [js "opened"; js "edited"; js "reopened"; js "synchronize"].

Definition DEFAULT_REQUIRED_LENGTH : Z := 8.

(** [[-\w]] *)
Definition dash_or_word : regex := RClass false [CChar (cu "-"); CWord].

(** [/^(?:[-\w]+\/[-\w]+)?#\d+$/] *)
Definition ISSUE_PATTERN : RegExp :=
  mkRegExp
    (RSeq [ RBol;
            ROpt (RSeq [RPlus dash_or_word; RChar "/"; RPlus dash_or_word]);
            RChar "#";
            RPlus (RClass false [CDigit]);
            REol ])
    false.

(** [[^\s()<>]] *)
Definition url_char : regex :=
  RClass true [CSpace; CChar (cu "("); CChar (cu ")"); CChar (cu "<"); CChar (cu ">")].

(** [\([^\s()<>]+\)] *)
Definition url_parens_inner : regex :=
  RSeq [RChar "("; RPlus url_char; RChar ")"].

(** [\(([^\s()<>]+|(\([^\s()<>]+\)))*\)] *)
Definition url_parens : regex :=
  RSeq [RChar "("; RStar (RAlt (RPlus url_char) url_parens_inner); RChar ")"].

(** [[a-z][\w-]+:(?:\/{1,3}|[a-z0-9%])] *)
Definition url_scheme : regex :=
  RSeq [ RClass false [CRange (cu "a") (cu "z")];
         RPlus (RClass false [CWord; CChar (cu "-")]);
         RChar ":";
         RAlt (RRepeat 1 3 (RChar "/"))
              (RClass false [CRange (cu "a") (cu "z"); CRange (cu "0") (cu "9");
                             CChar (cu "%")]) ].

(** [www\d{0,3}[.]] *)
Definition url_www : regex :=
  RSeq [ RChar "w"; RChar "w"; RChar "w";
         RRepeat 0 3 (RClass false [CDigit]);
         RClass false [CChar (cu ".")] ].

(** [[a-z0-9.\-]+[.][a-z]{2,4}\/] *)
Definition url_domain : regex :=
  RSeq [ RPlus (RClass false [CRange (cu "a") (cu "z"); CRange (cu "0") (cu "9");
                              CChar (cu "."); CChar (cu "-")]);
         RClass false [CChar (cu ".")];
         RRepeat 2 4 (RClass false [CRange (cu "a") (cu "z")]);
         RChar "/" ].

(** The last character of a URL: a negated class of white space, ASCII
    punctuation (34 is the double quote) and the quotation marks U+00AB,
    U+00BB, U+201C, U+201D, U+2018, U+2019. *)
Definition url_last_char : regex :=
  RClass true
    [ CSpace; CChar (cu "`"); CChar (cu "!"); CChar (cu "("); CChar (cu ")");
      CChar (cu "["); CChar (cu "]"); CChar (cu "{"); CChar (cu "}");
      CChar (cu ";"); CChar (cu ":"); CChar (cu "'"); CChar 34%N;
      CChar (cu "."); CChar (cu ","); CChar (cu "<"); CChar (cu ">");
      CChar (cu "?"); CChar 171%N; CChar 187%N; CChar 8220%N; CChar 8221%N;
      CChar 8216%N; CChar 8217%N ].

(** Gruber's pattern, flag [i]. *)
Definition URL_PATTERN : RegExp :=
  mkRegExp
    (RSeq [ RWordB;
            RAlt url_scheme (RAlt url_www url_domain);
            RPlus (RAlt (RPlus url_char) url_parens);
            RAlt url_parens url_last_char ])
    true.

Inductive check_name : Type :=
| MINIMUM_LENGTH
| CONTAINS_URL
| CONTAINS_ISSUE_NUMBER
| WAS_ADJUSTED.

(** The string a check name stands for. *)
Definition check_name_string (n : check_name) : jsstring :=
  match n with
  | MINIMUM_LENGTH => js "minimum-length"
  | CONTAINS_URL => js "contains-url"
  | CONTAINS_ISSUE_NUMBER => js "contains-issue-number"
  | WAS_ADJUSTED => js "was-adjusted"
  end.

Record Status : Type := mkStatus {
  description : jsstring;
  state : jsstring;
  context : jsstring
}.

(** [status(description, state = 'success')] *)
Definition status (description : jsstring) (state : option jsstring) : Status :=
  {| description := description;
     state := match state with Some s => s | None => js "success" end;
     context := js "zappr/pr/specification" |}.

(** [isLongEnough]; [str || ''] is [str] for a string. *)
Definition isLongEnough (str : jsstring) (requiredLength : Z) : bool :=
  (js_length str >? requiredLength)%Z.

Definition containsPattern (pattern : RegExp) (str : jsstring) : bool :=
  existsb (fun s => test pattern s) (split SPACE str).

Definition containsUrl : jsstring -> bool := containsPattern URL_PATTERN.
Definition containsIssueNumber : jsstring -> bool := containsPattern ISSUE_PATTERN.

(* ================================================================== *)
(** ** Errors, promises and the collaborators *)

Inductive js_error : Type :=
| Error (message : jsstring)
| TypeError (message : jsstring).

(** [e.message] *)
Definition message (e : js_error) : jsstring :=
  match e with
  | Error m => m
  | TypeError m => m
  end.

(** How the evaluation of a statement or call ends. *)
Inductive completion (A : Type) : Type :=
| Normal (a : A)
| Throw (e : js_error).
Arguments Normal {A} a.
Arguments Throw {A} e.

(** A promise, by the state it settles in. *)
Inductive promise (A : Type) : Type :=
| Fulfilled (a : A)
| Rejected (e : js_error).
Arguments Fulfilled {A} a.
Arguments Rejected {A} e.

(** The two operations the check uses of [GithubService].  Both are
    asynchronous; what they answer is up to the hosting service, so the
    service is a parameter of the check.  [readPullRequestTemplate]
    answers the text of the template, or [None] where it answers
    [undefined] or [null]. *)
Record GithubService : Type := mkGithubService {
  readPullRequestTemplate :
    jsstring -> jsstring -> jsstring -> promise (option jsstring);
  setCommitStatus :
    jsstring -> jsstring -> jsstring -> Status -> jsstring -> promise jsstring
}.

(** The calls made to the collaborator, in the order they are issued. *)
Inductive call : Type :=
| ReadPullRequestTemplate (user repo token : jsstring)
| SetCommitStatus (user repo sha : jsstring) (st : Status) (token : jsstring).

(** Code that calls the collaborator: the calls it issued and how it
    ended.  For an [async] function, [Throw] is the rejection of the
    promise it returned. *)
Definition M (A : Type) : Type := (list call * completion A)%type.

Definition ret {A} (a : A) : M A := ([], Normal a).

Definition throw {A} (e : js_error) : M A := ([], Throw e).

Definition bind {A B} (m : M A) (f : A -> M B) : M B :=
  match m with
  | (t, Normal a) => let (t', r) := f a in (t ++ t', r)
  | (t, Throw e) => (t, Throw e)
  end.

Notation "x <- m ;; k" := (bind m (fun x => k))
  (at level 61, m at next level, right associativity).
Notation "m ;;; k" := (bind m (fun _ => k))
  (at level 61, right associativity).

(** [try { m } catch (e) { handler e }] *)
Definition try_catch {A} (m : M A) (handler : js_error -> M A) : M A :=
  match m with
  | (t, Throw e) => let (t', r) := handler e in (t ++ t', r)
  | (t, Normal a) => (t, Normal a)
  end.

(** A synchronous function, called. *)
Definition sync {A} (c : completion A) : M A := ([], c).

(** An [async] function, called: the call itself never throws.  The callee
    runs at once as far as its first [await], which is where the one
    [async] function of this module issues its request; how it ends is
    the state of the promise it returns. *)
Definition async {A} (m : M A) : M (promise A) :=
  (fst m, Normal match snd m with
                 | Normal a => Fulfilled a
                 | Throw e => Rejected e
                 end).

(** [await p] *)
Definition await {A} (p : promise A) : M A :=
  ([], match p with
       | Fulfilled a => Normal a
       | Rejected e => Throw e
       end).

(** [Promise.all] of an array of three entries.  An entry that is a plain
    value counts as a fulfilled promise.  The result is rejected as soon
    as an entry is; at most one entry of the array the check builds is a
    promise that can be rejected, so which rejection comes first is not in
    question. *)
Definition Promise_all {A B C} (p1 : promise A) (p2 : promise B)
    (p3 : promise C) : promise (A * B * C) :=
  match p1, p2, p3 with
  | Fulfilled a, Fulfilled b, Fulfilled c => Fulfilled (a, b, c)
  | Rejected e, _, _ => Rejected e
  | _, Rejected e, _ => Rejected e
  | _, _, Rejected e => Rejected e
  end.

Definition trace {A} (m : M A) : list call := fst m.
Definition outcome {A} (m : M A) : completion A := snd m.

(** [this.github.readPullRequestTemplate(user, repo, token)] *)
Definition github_readPullRequestTemplate (github : GithubService)
    (user repo token : jsstring) : M (promise (option jsstring)) :=
  ([ReadPullRequestTemplate user repo token],
   Normal (readPullRequestTemplate github user repo token)).

(** [this.github.setCommitStatus(user, repo, sha, status, token)] *)
Definition github_setCommitStatus (github : GithubService)
    (user repo sha : jsstring) (st : Status) (token : jsstring)
    : M (promise jsstring) :=
  ([SetCommitStatus user repo sha st token],
   Normal (setCommitStatus github user repo sha st token)).

(** The status writes and the template fetches among the calls. *)
Definition status_writes (t : list call) : list Status :=
  flat_map (fun c => match c with
                     | SetCommitStatus _ _ _ st _ => [st]
                     | ReadPullRequestTemplate _ _ _ => []
                     end) t.

Definition template_fetches (t : list call) : nat :=
  List.length (filter (fun c => match c with
                                | ReadPullRequestTemplate _ _ _ => true
                                | SetCommitStatus _ _ _ _ _ => false
                                end) t).

(* ================================================================== *)
(** ** Configuration and payload

    Every entry of the configuration may be absent ([None]); the
    destructuring defaults of the source fill it in. *)

Record MinimumLength : Type := mkMinimumLength {
  enabled : option bool;
  length : option Z
}.

Record TitleChecks : Type := mkTitleChecks {
  title_minimum_length : option MinimumLength
}.

Record BodyChecks : Type := mkBodyChecks {
  body_minimum_length : option MinimumLength;
  contains_url : option bool;
  contains_issue_number : option bool
}.

Record TemplateChecks : Type := mkTemplateChecks {
  was_adjusted : option bool
}.

Record SpecificationConfig : Type := mkSpecificationConfig {
  title_checks : option TitleChecks;
  body_checks : option BodyChecks;
  template_checks : option TemplateChecks
}.

Record Config : Type := mkConfig {
  specification : option SpecificationConfig
}.

(** [x = d] of a destructuring pattern or parameter list. *)
Definition default {A} (d : A) (x : option A) : A :=
  match x with
  | Some a => a
  | None => d
  end.

(** The object [{}] at each of these types. *)
Definition no_minimum_length : MinimumLength := mkMinimumLength None None.
Definition no_title_checks : TitleChecks := mkTitleChecks None.
Definition no_body_checks : BodyChecks := mkBodyChecks None None None.
Definition no_template_checks : TemplateChecks := mkTemplateChecks None.
Definition no_specification : SpecificationConfig :=
  mkSpecificationConfig None None None.

Record Head : Type := mkHead { sha : jsstring }.

Record PullRequest : Type := mkPullRequest {
  title : option jsstring;
  body : option jsstring;
  head : Head;
  number : Z;
  pr_state : jsstring
}.

Record Owner : Type := mkOwner { login : jsstring }.

Record Repository : Type := mkRepository {
  full_name : jsstring;
  name : jsstring;
  owner : Owner
}.

(** The hook payload; the guard of [execute] itself allows for a payload
    without [pull_request]. *)
Record HookPayload : Type := mkHookPayload {
  action : jsstring;
  pull_request : option PullRequest;
  repository : Repository
}.

(* ================================================================== *)
(** ** The class [Specification] *)

(** [_validateTitle(title, checks = {})] *)
Definition _validateTitle (title : jsstring) (checks : option TitleChecks)
    : completion unit :=
  let checks := default no_title_checks checks in
  let minimum_length := default no_minimum_length (title_minimum_length checks) in
  let shouldCheckLength := default true (enabled minimum_length) in
  let requiredLength := default DEFAULT_REQUIRED_LENGTH (length minimum_length) in
  if shouldCheckLength && negb (isLongEnough title requiredLength)
  then Throw (Error (js "PR's title is too short ("
                       ++ number_to_string (js_length title) ++ js "/"
                       ++ number_to_string requiredLength ++ js ")"))
  else Normal tt.

(** [_differsFromPrTemplate(content, template)] *)
Definition _differsFromPrTemplate (content template : jsstring) : bool :=
  negb (jsstring_eqb (trim content) (trim template)).

(** [!template]: no answer, or the empty string. *)
Definition no_template (template : option jsstring) : bool :=
  match template with
  | None => true
  | Some [] => true
  | Some (_ :: _) => false
  end.

(** Truthiness of an entry that holds a boolean when it is there. *)
Definition truthy (x : option bool) : bool :=
  match x with
  | Some b => b
  | None => false
  end.

(** [async _validateTemplate(body, user, repo, token, checks = {})] *)
Definition _validateTemplate (github : GithubService)
    (body user repo token : jsstring) (checks : option TemplateChecks) : M bool :=
  let checks := default no_template_checks checks in
  let shouldCheckWasAdjusted := was_adjusted checks in
  p <- github_readPullRequestTemplate github user repo token ;;
  template <- await p ;;
  if no_template template then ret true
  else
    if truthy shouldCheckWasAdjusted
       && _differsFromPrTemplate body (default [] template)
    then throw (Error (js "PR's body is the same as template"))
    else ret true.

(** An entry of [checksMapping]. *)
Record CheckEntry : Type := mkCheckEntry {
  entry_enabled : bool;
  fn : unit -> bool
}.

(** [failedChecks[0]] inside a template literal. *)
Definition first_or_undefined (failedChecks : list jsstring) : jsstring :=
  match failedChecks with
  | x :: _ => x
  | [] => js "undefined"
  end.

(** The order the checks of the body are taken in. *)
Definition body_checks_order : list check_name :=
  [CONTAINS_ISSUE_NUMBER; CONTAINS_URL; MINIMUM_LENGTH].

(** The callback of [reduce] in [_validateBody]. *)
Definition body_check_step (checksMapping : check_name -> CheckEntry)
    (acc : bool * list jsstring) (checkName : check_name)
    : bool * list jsstring :=
  let '(success, failedChecks) := acc in
  let e := checksMapping checkName in
  if entry_enabled e then
    let res := fn e tt in
    let failedChecks :=
      if negb res
      then failedChecks ++ [js "'" ++ check_name_string checkName ++ js "'"]
      else failedChecks in
    (success || res, failedChecks)
  else (success, failedChecks).

(** [checksMapping] of [_validateBody]; a check that is not one of the
    body's is never looked up. *)
Definition body_checks_mapping (body : jsstring)
    (shouldCheckLength : bool) (requiredLength : Z)
    (shouldCheckUrl shouldCheckIssue : bool) (n : check_name) : CheckEntry :=
  match n with
  | CONTAINS_URL => mkCheckEntry shouldCheckUrl (fun _ => containsUrl body)
  | CONTAINS_ISSUE_NUMBER =>
      mkCheckEntry shouldCheckIssue (fun _ => containsIssueNumber body)
  | MINIMUM_LENGTH =>
      mkCheckEntry shouldCheckLength (fun _ => isLongEnough body requiredLength)
  | WAS_ADJUSTED => mkCheckEntry false (fun _ => false)
  end.

(** [_validateBody(body, checks = {})] *)
Definition _validateBody (body : jsstring) (checks : option BodyChecks)
    : completion unit :=
  let checks := default no_body_checks checks in
  let minimum_length := default no_minimum_length (body_minimum_length checks) in
  let shouldCheckLength := default true (enabled minimum_length) in
  let requiredLength := default DEFAULT_REQUIRED_LENGTH (length minimum_length) in
  let shouldCheckUrl := default true (contains_url checks) in
  let shouldCheckIssue := default true (contains_issue_number checks) in
  let checksMapping :=
    body_checks_mapping body shouldCheckLength requiredLength
                        shouldCheckUrl shouldCheckIssue in
  let '(success, failedChecks) :=
    fold_left (body_check_step checksMapping) body_checks_order (false, []) in
  if negb success
  then Throw (Error (js "PR's body failed check " ++ first_or_undefined failedChecks))
  else Normal tt.

(** [async validate(config, pr, repo, token)].

    The three evaluators are called one after the other while the array
    given to [Promise.all] is built, inside [try].  [_validateTitle] and
    [_validateBody] are plain functions: when one throws, control goes to
    [catch] at once and the calls after it are not made.
    [_validateTemplate] is [async]: it has issued its request when
    [_validateBody] is called, and its rejection is seen by
    [await Promise.all].  [return this.github.setCommitStatus(...)] hands
    the promise of the status write to the caller, in [try] as in [catch]. *)
Definition validate (github : GithubService) (config : Config)
    (pr : PullRequest) (repo : Repository) (token : jsstring) : M jsstring :=
  let title := default [] (title pr) in
  let body := default [] (body pr) in
  let sha := sha (head pr) in
  let user := login (owner repo) in
  let spec := default no_specification (specification config) in
  let titleChecks := default no_title_checks (title_checks spec) in
  let bodyChecks := default no_body_checks (body_checks spec) in
  let templateChecks := default no_template_checks (template_checks spec) in
  written <-
    try_catch
      (t <- sync (_validateTitle title (Some titleChecks)) ;;
       p <- async (_validateTemplate github body user (name repo) token
                                     (Some templateChecks)) ;;
       b <- sync (_validateBody body (Some bodyChecks)) ;;
       await (Promise_all (Fulfilled t) p (Fulfilled b)) ;;;
       github_setCommitStatus github user (name repo) sha
         (status (js "PR has passed specification checks") None) token)
      (fun e =>
         github_setCommitStatus github user (name repo) sha
           (status (message e) (Some (js "failure"))) token) ;;
  await written.

(** [ACTIONS.indexOf(action)] *)
Fixpoint indexOf (l : list jsstring) (x : jsstring) : Z :=
  match l with
  | [] => (-1)%Z
  | y :: l' =>
      if jsstring_eqb y x then 0%Z
      else let k := indexOf l' x in
           if (k =? -1)%Z then (-1)%Z else (k + 1)%Z
  end.

(** The argument of [info] in [execute]: reading [number] of a
    [pull_request] that is not there throws (the text of the error is the
    engine's). *)
Definition nothing_to_do (repo : Repository) (pr : option PullRequest)
    (action : jsstring) : completion jsstring :=
  match pr with
  | None => Throw (TypeError (js "Cannot read property 'number' of undefined"))
  | Some pr =>
      Normal (full_name repo ++ js "#" ++ number_to_string (number pr)
              ++ js ": Nothing to do, action was " ++ [34%N] ++ action
              ++ [34%N] ++ js " with state " ++ [34%N] ++ pr_state pr
              ++ [34%N] ++ js ".")
  end.

(** The condition of the guard of [execute], with the short circuit of
    [||]: the state is read only of a [pull_request] that is there. *)
Definition not_actionable (action : jsstring) (pr : option PullRequest) : bool :=
  (indexOf ACTIONS action =? -1)%Z
  || match pr with
     | None => true
     | Some pr => negb (jsstring_eqb (js "open") (pr_state pr))
     end.

(** [async execute(config, hookPayload, token)]; [info] only logs. *)
Definition execute (github : GithubService) (config : Config)
    (hookPayload : HookPayload) (token : jsstring) : M unit :=
  let action := action hookPayload in
  let pr := pull_request hookPayload in
  let repo := repository hookPayload in
  if not_actionable action pr
  then sync (nothing_to_do repo pr action) ;;; ret tt
  else
    match pr with
    | Some pr => validate github config pr repo token ;;; ret tt
    | None => ret tt
    end.

(* ================================================================== *)
(** ** Notions the properties are stated with *)

(** The title's length check as configured: enabled unless the entry
    says otherwise, with threshold 8 unless the entry gives one. *)
Definition title_check_enabled (checks : option TitleChecks) : bool :=
  match checks with
  | Some {| title_minimum_length := Some {| enabled := Some b |} |} => b
  | _ => true
  end.

Definition title_required_length (checks : option TitleChecks) : Z :=
  match checks with
  | Some {| title_minimum_length := Some {| length := Some n |} |} => n
  | _ => 8%Z
  end.

(** Whether a sub-check of the body is enabled, and what it answers. *)
Definition sub_check_enabled (checks : option BodyChecks) (n : check_name) : bool :=
  match n, checks with
  | CONTAINS_ISSUE_NUMBER, Some {| contains_issue_number := Some b |} => b
  | CONTAINS_URL, Some {| contains_url := Some b |} => b
  | MINIMUM_LENGTH,
    Some {| body_minimum_length := Some {| enabled := Some b |} |} => b
  | WAS_ADJUSTED, _ => false
  | _, _ => true
  end.

Definition body_required_length (checks : option BodyChecks) : Z :=
  match checks with
  | Some {| body_minimum_length := Some {| length := Some n |} |} => n
  | _ => 8%Z
  end.

Definition sub_check_result (body : jsstring) (checks : option BodyChecks)
    (n : check_name) : bool :=
  match n with
  | CONTAINS_ISSUE_NUMBER => containsIssueNumber body
  | CONTAINS_URL => containsUrl body
  | MINIMUM_LENGTH => isLongEnough body (body_required_length checks)
  | WAS_ADJUSTED => false
  end.


(** A check name as a failure reason shows it, between single quotes. *)
Definition quoted (n : check_name) : jsstring :=
  js "'" ++ check_name_string n ++ js "'".

(** An issue reference: an optional [owner/repo] prefix, then [#], then
    one or more digits, and nothing else.  Owner and repository are
    non-empty runs of word characters and dashes. *)
Definition is_dash_or_word (c : code_unit) : bool :=
  (c =? cu "-")%N || is_word_char c.

Definition is_owner_repo (s : jsstring) : Prop :=
  exists owner repo : jsstring,
    s = owner ++ cu "/" :: repo
    /\ owner <> [] /\ repo <> []
    /\ forallb is_dash_or_word owner = true
    /\ forallb is_dash_or_word repo = true.

Definition is_issue_reference (tok : jsstring) : Prop :=
  exists prefix digits : jsstring,
    tok = prefix ++ cu "#" :: digits
    /\ (prefix = [] \/ is_owner_repo prefix)
    /\ digits <> [] /\ forallb is_digit digits = true.

(** The pieces of a string between its white-space characters. *)
Fixpoint split_whitespace (s : jsstring) : list jsstring :=
  match s with
  | [] => [[]]
  | c :: s' =>
      if is_whitespace c then [] :: split_whitespace s'
      else match split_whitespace s' with
           | tok :: toks => (c :: tok) :: toks
           | [] => [[c]]
           end
  end.

(** The code units of [input] from position [i] up to position [j]. *)
Definition segment (input : jsstring) (i j : nat) : jsstring :=
  firstn (j - i) (skipn i input).

(** How each evaluator ends for a pull request, taken on its own. *)
Definition title_outcome (config : Config) (pr : PullRequest) : completion unit :=
  _validateTitle (default [] (title pr))
    (Some (default no_title_checks
             (title_checks (default no_specification (specification config))))).

Definition body_outcome (config : Config) (pr : PullRequest) : completion unit :=
  _validateBody (default [] (body pr))
    (Some (default no_body_checks
             (body_checks (default no_specification (specification config))))).

Definition template_outcome (github : GithubService) (config : Config)
    (pr : PullRequest) (repo : Repository) (token : jsstring) : completion bool :=
  outcome (_validateTemplate github (default [] (body pr)) (login (owner repo))
             (name repo) token
             (Some (default no_template_checks
                      (template_checks
                         (default no_specification (specification config)))))).

(** How a promise settles, as what [await] makes of it. *)
Definition settled {A} (p : promise A) : completion A :=
  match p with
  | Fulfilled a => Normal a
  | Rejected e => Throw e
  end.

Definition failure_status (e : js_error) : Status :=
  status (message e) (Some (js "failure")).

Definition success_status : Status :=
  status (js "PR has passed specification checks") None.

Definition passes {A} (c : completion A) : Prop := exists a, c = Normal a.

Definition fails_with {A} (c : completion A) (e : js_error) : Prop := c = Throw e.

(** A hosting service and a pull request to run the check on: the fetch
    of the template fails with [Bad credentials], the title and the body
    of the pull request satisfy their rules, the event is [opened] on an
    open pull request. *)
Definition bad_credentials : js_error := Error (js "Bad credentials").

Definition failing_fetch_service : GithubService :=
  mkGithubService (fun _ _ _ => Rejected bad_credentials)
                  (fun _ _ _ _ _ => Fulfilled (js "created")).

Definition sample_repository : Repository :=
  mkRepository (js "zalando/zappr") (js "zappr") (mkOwner (js "zalando")).

Definition sample_pull_request (title body : jsstring) : PullRequest :=
  mkPullRequest (Some title) (Some body) (mkHead (js "c0ffee")) 42 (js "open").

Definition sample_payload (title body : jsstring) : HookPayload :=
  mkHookPayload (js "opened") (Some (sample_pull_request title body))
                sample_repository.

Definition no_config : Config := mkConfig None.

(** A service whose repository has the given template. *)
Definition service_with_template (template : jsstring) : GithubService :=
  mkGithubService (fun _ _ _ => Fulfilled (Some template))
                  (fun _ _ _ _ _ => Fulfilled (js "created")).

Definition was_adjusted_on : option TemplateChecks :=
  Some (mkTemplateChecks (Some true)).

(** The verdict: the status [validate] reports, from how the three
    evaluators end.  A failing evaluator that comes earlier in the order
    Title, Body, Template gives the description. *)
Definition verdict (title_result : completion unit)
    (template_result : completion bool) (body_result : completion unit) : Status :=
  match title_result, body_result, template_result with
  | Throw e, _, _ => failure_status e
  | Normal _, Throw e, _ => failure_status e
  | Normal _, Normal _, Throw e => failure_status e
  | Normal _, Normal _, Normal _ => success_status
  end.

(** The event gate: the action is one of [ACTIONS] and the pull request
    is open. *)
Definition eligible (action : jsstring) (pr : PullRequest) : Prop :=
  In action ACTIONS /\ pr_state pr = js "open".

(** A configuration with every entry written out: an absent switch of
    the title or the body is on, an absent threshold is 8, an absent
    [was-adjusted] is off. *)
Definition written_out_minimum_length (m : option MinimumLength) : MinimumLength :=
  match m with
  | Some {| enabled := Some b; length := Some n |} => mkMinimumLength (Some b) (Some n)
  | Some {| enabled := Some b; length := None |} => mkMinimumLength (Some b) (Some 8%Z)
  | Some {| enabled := None; length := Some n |} => mkMinimumLength (Some true) (Some n)
  | _ => mkMinimumLength (Some true) (Some 8%Z)
  end.

Definition written_out_switch (d : bool) (x : option bool) : option bool :=
  match x with
  | Some b => Some b
  | None => Some d
  end.

Definition written_out (config : Config) : Config :=
  match specification config with
  | None =>
      mkConfig (Some (mkSpecificationConfig
        (Some (mkTitleChecks (Some (written_out_minimum_length None))))
        (Some (mkBodyChecks (Some (written_out_minimum_length None))
                            (Some true) (Some true)))
        (Some (mkTemplateChecks (Some false)))))
  | Some spec =>
      mkConfig (Some (mkSpecificationConfig
        (Some (mkTitleChecks
           (Some (written_out_minimum_length
                    match title_checks spec with
                    | Some t => title_minimum_length t
                    | None => None
                    end))))
        (Some match body_checks spec with
              | Some b =>
                  mkBodyChecks
                    (Some (written_out_minimum_length (body_minimum_length b)))
                    (written_out_switch true (contains_url b))
                    (written_out_switch true (contains_issue_number b))
              | None =>
                  mkBodyChecks (Some (written_out_minimum_length None))
                               (Some true) (Some true)
              end)
        (Some match template_checks spec with
              | Some t => mkTemplateChecks (written_out_switch false (was_adjusted t))
              | None => mkTemplateChecks (Some false)
              end)))
  end.

(** A call that goes to the given repository with the given token and,
    for a status write, to the given commit. *)
Definition call_targets (user repo sha token : jsstring) (c : call) : Prop :=
  match c with
  | ReadPullRequestTemplate u r t => u = user /\ r = repo /\ t = token
  | SetCommitStatus u r s _ t => u = user /\ r = repo /\ s = sha /\ t = token
  end.

(** What [execute] makes of the answer to the status write. *)
Definition ends_as (written : promise jsstring) : completion unit :=
  match written with
  | Fulfilled _ => Normal tt
  | Rejected e => Throw e
  end.

(** The checks of the title as [validate] hands them to
    [_validateTitle]. *)
Definition configured_title_checks (config : Config) : option TitleChecks :=
  Some (default no_title_checks
          (title_checks (default no_specification (specification config)))).

(** What surrounds a piece of a body: nothing or text ending in a space
    before it, nothing or text beginning with a space after it. *)
Definition ends_in_space (a : jsstring) : Prop :=
  a = [] \/ exists a', a = a' ++ [SPACE].

Definition begins_with_space (b : jsstring) : Prop :=
  b = [] \/ exists b', b = SPACE :: b'.

(* ================================================================== *)
(** * Properties *)

(** ** The matcher computes the relation *)

Lemma add_In (j x : nat) (l : list nat) : In x (add j l) <-> j = x \/ In x l.
Proof.
  unfold add. destruct (existsb (Nat.eqb j) l) eqn:E.
  - split; [now right|]. intros [<-|H]; [|exact H].
    apply existsb_exists in E. destruct E as (y & Hy & Hjy).
    apply Nat.eqb_eq in Hjy. now subst.
  - simpl. tauto.
Qed.

Lemma union_In (x : nat) (l1 l2 : list nat) :
  In x (union l1 l2) <-> In x l1 \/ In x l2.
Proof.
  unfold union. induction l2 as [|y l2 IH]; simpl.
  - tauto.
  - rewrite add_In, IH. tauto.
Qed.

Lemma cat_fold_In (f : nat -> list nat) (x : nat) (l : list nat) :
  In x (fold_right (fun j acc => union acc (f j)) [] l)
  <-> exists j, In j l /\ In x (f j).
Proof.
  induction l as [|y l IH]; simpl.
  - split; [tauto|]. intros (j & [] & _).
  - rewrite union_In, IH. split.
    + intros [(j & Hj & Hx)|Hx]; eauto.
    + intros (j & [->|Hj] & Hx); eauto.
Qed.

Lemma progress_In (step : nat -> list nat) (i j : nat) :
  In j (progress step i) <-> In j (step i) /\ i < j.
Proof.
  unfold progress. rewrite filter_In, Nat.ltb_lt. tauto.
Qed.

Lemma mem_In (p : nat) (l : list nat) : existsb (Nat.eqb p) l = true <-> In p l.
Proof.
  rewrite existsb_exists. split.
  - intros (y & Hy & E). apply Nat.eqb_eq in E. now subst.
  - intros H. exists p. split; [exact H|apply Nat.eqb_refl].
Qed.

Lemma sweep_incl (step : nat -> list nat) (n p x : nat) (reach : list nat) :
  In x reach -> In x (sweep step n p reach).
Proof.
  revert p reach. induction n as [|n IH]; simpl; intros p reach H; [exact H|].
  apply IH. destruct (existsb (Nat.eqb p) reach); [|exact H].
  apply union_In. now left.
Qed.

(** Whatever holds of the start and is kept by an iteration holds of all
    that [sweep] reaches. *)
Lemma sweep_sound (step : nat -> list nat) (P : nat -> Prop) :
  (forall q j, P q -> In j (progress step q) -> P j) ->
  forall n p reach,
    (forall x, In x reach -> P x) ->
    forall x, In x (sweep step n p reach) -> P x.
Proof.
  intros Hstep. induction n as [|n IH]; simpl; intros p reach Hreach x Hx.
  - auto.
  - apply IH in Hx; [exact Hx|]. intros y Hy.
    destruct (existsb (Nat.eqb p) reach) eqn:E; [|auto].
    apply union_In in Hy. destruct Hy as [Hy|Hy]; [auto|].
    apply mem_In in E. eauto.
Qed.

(** After the sweep, the positions below [p + n] have been expanded. *)
Lemma sweep_closed (step : nat -> list nat) :
  forall n p reach,
    (forall q j, In q reach -> q < p -> In j (progress step q) -> In j reach) ->
    forall q j,
      In q (sweep step n p reach) -> q < p + n ->
      In j (progress step q) -> In j (sweep step n p reach).
Proof.
  induction n as [|n IH]; simpl; intros p reach Hinv q j Hq Hlt Hj.
  - rewrite Nat.add_0_r in Hlt. eauto.
  - apply IH with (q := q); auto; [|lia].
    clear q j Hq Hlt Hj. intros q j Hq Hlt Hj.
    destruct (existsb (Nat.eqb p) reach) eqn:E.
    + apply union_In. apply union_In in Hq.
      destruct Hq as [Hq|Hq].
      * destruct (Nat.eq_dec q p) as [->|Hne]; [now right|].
        left. apply Hinv with q; auto. lia.
      * apply progress_In in Hq. lia.
    + destruct (Nat.eq_dec q p) as [->|Hne].
      * apply mem_In in Hq. congruence.
      * apply Hinv with q; auto. lia.
Qed.

Section MatcherCorrect.
Variable icase : bool.
Variable input : jsstring.

(** A match moves forward and stays inside the input. *)
Lemma matches_bounds (r : regex) (i j : nat) :
  matches icase input r i j -> i <= j /\ (i < j -> j <= List.length input).
Proof.
  induction 1; try (split; lia).
  - split; [lia|]. intros _.
    assert (i < List.length input) by (apply nth_error_Some; congruence).
    lia.
Qed.

Lemma star_snoc (a : regex) (i j k : nat) :
  matches icase input (RStar a) i j -> matches icase input a j k -> j < k -> matches icase input (RStar a) i k.
Proof.
  intros H. remember (RStar a) as r eqn:Er. revert Er.
  induction H; intros Er; try discriminate; injection Er as ->; intros Ha Hlt.
  - eapply M_star_step; eauto. apply M_star_nil.
  - eapply M_star_step; eauto.
Qed.

Lemma star_closed (a : regex) (S : nat -> Prop) :
  (forall q j, S q -> matches icase input a q j -> q < j -> S j) ->
  forall i k, matches icase input (RStar a) i k -> S i -> S k.
Proof.
  intros Hcl i k H. remember (RStar a) as r eqn:Er. revert Er.
  induction H; intros Er; try discriminate; injection Er as ->; intros Hi.
  - exact Hi.
  - apply IHmatches2; [reflexivity|]. eauto.
Qed.

(** The matcher is sound and complete for the relation. *)
Lemma match_from_spec (r : regex) :
  forall i j, In j (match_from icase input r i) <-> matches icase input r i j.
Proof.
  induction r as [|neg items|a IHa b IHb|a IHa b IHb|a IHa| | |];
    intros i j; simpl.
  - split.
    + intros [<-|[]]. constructor.
    + inversion 1; subst. now left.
  - destruct (nth_error input i) as [c|] eqn:Ec.
    + destruct (class_matches icase neg items c) eqn:Em.
      * split.
        -- intros [<-|[]]. econstructor; eauto.
        -- inversion 1; subst. now left.
      * split; [intros []|]. inversion 1; subst. congruence.
    + split; [intros []|]. inversion 1; subst. congruence.
  - rewrite cat_fold_In. split.
    + intros (m & Hm & Hj). apply IHa in Hm. apply IHb in Hj.
      econstructor; eauto.
    + inversion 1; subst. eexists. split; [apply IHa|apply IHb]; eauto.
  - rewrite union_In, IHa, IHb. split.
    + intros [H|H]; [now apply M_alt_l|now apply M_alt_r].
    + inversion 1; subst; auto.
  - split.
    + apply sweep_sound with (P := fun x => matches icase input (RStar a) i x).
      * intros q k Hq Hk. apply progress_In in Hk. destruct Hk as [Hk Hlt].
        apply IHa in Hk. eapply star_snoc; eauto.
      * intros x [<-|[]]. apply M_star_nil.
    + intros H.
      apply star_closed
        with (S := fun x => In x (sweep (match_from icase input a) (List.length input - i) i [i]))
             (a := a) (i := i); auto.
      * intros q k Hq Hk Hlt.
        apply sweep_closed with (q := q); auto.
        -- intros q' j' [<-|[]] Hlt'. lia.
        -- apply matches_bounds in Hk. lia.
        -- apply progress_In. split; [now apply IHa|exact Hlt].
      * apply sweep_incl. now left.
  - destruct (Nat.eqb_spec i 0) as [->|Hne].
    + split.
      * intros [<-|[]]. constructor.
      * inversion 1; subst. now left.
    + split; [intros []|]. inversion 1; subst. congruence.
  - destruct (Nat.eqb_spec i (List.length input)) as [->|Hne].
    + split.
      * intros [<-|[]]. constructor.
      * inversion 1; subst. now left.
    + split; [intros []|]. inversion 1; subst. congruence.
  - destruct (at_word_boundary input i) eqn:E.
    + split.
      * intros [<-|[]]. now constructor.
      * inversion 1; subst. now left.
    + split; [intros []|]. inversion 1; subst. congruence.
Qed.
End MatcherCorrect.

(** [test] answers whether the pattern matches somewhere in the string. *)
Lemma test_spec (re : RegExp) (str : jsstring) :
  test re str = true
  <-> exists i j, i <= List.length str
                  /\ matches (ignoreCase re) str (pattern re) i j.
Proof.
  unfold test. rewrite existsb_exists. split.
  - intros (i & Hi & Hm). apply in_seq in Hi.
    destruct (match_from (ignoreCase re) str (pattern re) i) as [|j l] eqn:E;
      [discriminate|].
    exists i, j. split; [lia|]. apply match_from_spec. rewrite E. now left.
  - intros (i & j & Hi & Hm). exists i. split; [apply in_seq; lia|].
    apply match_from_spec in Hm.
    destruct (match_from (ignoreCase re) str (pattern re) i); [destruct Hm|reflexivity].
Qed.

(** ** Classes under flag [i] *)

Ltac range_cases c :=
  destruct (N.leb_spec 97 c), (N.leb_spec c 122); simpl;
  repeat match goal with
         | |- context [(?a <=? ?b)%N] => destruct (N.leb_spec a b); simpl in *
         end;
  try reflexivity; try lia.

Lemma canonicalize_idempotent (c : code_unit) :
  canonicalize (canonicalize c) = canonicalize c.
Proof. unfold canonicalize, is_lower, in_range. range_cases c. Qed.

Lemma canonicalize_uncanonicalize (c : code_unit) :
  canonicalize (uncanonicalize (canonicalize c)) = canonicalize c.
Proof.
  unfold canonicalize, uncanonicalize, is_lower, is_upper, in_range.
  range_cases c.
Qed.

Lemma canonical_preimage (a c : code_unit) :
  canonicalize a = canonicalize c ->
  a = canonicalize c \/ a = uncanonicalize (canonicalize c).
Proof.
  unfold canonicalize, uncanonicalize, is_lower, is_upper, in_range.
  destruct (N.leb_spec 97 a), (N.leb_spec a 122); simpl; range_cases c.
Qed.

(** A range of a class under flag [i] holds [c] exactly when it holds a
    code unit with the canonical form of [c]. *)
Lemma range_ignore_case_spec (lo hi c : code_unit) :
  item_matches true (CRange lo hi) c = true
  <-> exists a, in_range lo hi a = true /\ canonicalize a = canonicalize c.
Proof.
  simpl. rewrite orb_true_iff. split.
  - intros [H|H]; eexists; (split; [exact H|]).
    + apply canonicalize_idempotent.
    + apply canonicalize_uncanonicalize.
  - intros (a & Ha & E). apply canonical_preimage in E.
    destruct E as [<-|<-]; auto.
Qed.

(** ** Segments of the input *)

Lemma segment_nil (input : jsstring) (i : nat) : segment input i i = [].
Proof. unfold segment. now rewrite Nat.sub_diag. Qed.

Lemma skipn_nth_cons (input : jsstring) (i : nat) (c : code_unit) :
  nth_error input i = Some c -> skipn i input = c :: skipn (S i) input.
Proof.
  revert input. induction i as [|i IH]; intros [|x l] H; simpl in *;
    try discriminate.
  - now injection H as ->.
  - now apply IH.
Qed.

Lemma segment_cons (input : jsstring) (i j : nat) (c : code_unit) :
  nth_error input i = Some c -> i < j ->
  segment input i j = c :: segment input (S i) j.
Proof.
  intros H Hlt. unfold segment. rewrite (skipn_nth_cons _ _ H).
  replace (j - i) with (S (j - S i)) by lia. reflexivity.
Qed.

Lemma segment_app_eq (input pre w post : jsstring) (i j : nat) :
  input = pre ++ w ++ post -> i = List.length pre -> j = i + List.length w ->
  segment input i j = w.
Proof.
  intros -> -> ->. unfold segment.
  rewrite skipn_app, skipn_all, Nat.sub_diag. simpl.
  replace (List.length pre + List.length w - List.length pre)
    with (List.length w + 0) by lia.
  rewrite firstn_app_2. simpl. apply app_nil_r.
Qed.

Lemma segment_to_end (input : jsstring) (i : nat) :
  segment input i (List.length input) = skipn i input.
Proof.
  unfold segment. rewrite <- (length_skipn i input). apply firstn_all.
Qed.

Lemma segment_from_start (input : jsstring) (j : nat) :
  segment input 0 j = firstn j input.
Proof. unfold segment. now rewrite Nat.sub_0_r. Qed.

Lemma segment_of_firstn (input : jsstring) (i j : nat) :
  skipn i (firstn j input) = segment input i j.
Proof. unfold segment. apply skipn_firstn_comm. Qed.

(** ** What the pieces of the issue pattern match *)

Section Pieces.
Variable icase : bool.
Variable input : jsstring.

Lemma matches_class_inv (negated : bool) (items : list class_item) (i j : nat) :
  matches icase input (RClass negated items) i j ->
  j = S i
  /\ exists c, nth_error input i = Some c
               /\ class_matches icase negated items c = true.
Proof. inversion 1; subst. eauto. Qed.

Lemma matches_star_class (negated : bool) (items : list class_item) (i j : nat) :
  matches icase input (RStar (RClass negated items)) i j
  <-> i <= j /\ (i < j -> j <= List.length input)
      /\ forallb (class_matches icase negated items) (segment input i j) = true.
Proof.
  split.
  - intros H. remember (RStar (RClass negated items)) as r eqn:Er. revert Er.
    induction H; intros Er; try discriminate; injection Er as ->.
    + rewrite segment_nil. repeat split; auto; lia.
    + destruct (IHmatches2 eq_refl) as (Hle & Hlen & Hall).
      apply matches_class_inv in H. destruct H as (-> & c & Hc & Hm).
      split; [lia|split].
      * intros _. destruct (Nat.eq_dec (S i) k) as [<-|Hne]; [|lia].
        assert (i < List.length input) by (apply nth_error_Some; congruence).
        lia.
      * rewrite (segment_cons _ Hc) by lia. simpl. now rewrite Hm, Hall.
  - intros (Hle & Hlen & Hall).
    remember (j - i) as n eqn:En. revert i En Hle Hlen Hall.
    induction n as [|n IH]; intros i En Hle Hlen Hall.
    + replace j with i by lia. apply M_star_nil.
    + assert (Hi : i < List.length input) by lia.
      destruct (nth_error input i) as [c|] eqn:Ec;
        [|apply nth_error_None in Ec; lia].
      rewrite (segment_cons _ Ec) in Hall by lia. simpl in Hall.
      apply andb_prop in Hall. destruct Hall as [Hc Hall].
      apply M_star_step with (j := S i); [|lia|].
      * econstructor; eauto.
      * apply IH; auto; lia.
Qed.

(** A run [[...]+]: the characters from [i] to [j], at least one, are
    all in the class. *)
Lemma matches_plus_class (negated : bool) (items : list class_item) (i j : nat) :
  matches icase input (RPlus (RClass negated items)) i j
  <-> i < j /\ j <= List.length input
      /\ forallb (class_matches icase negated items) (segment input i j) = true.
Proof.
  unfold RPlus. split.
  - inversion 1; subst.
    match goal with
    | Hc : matches _ _ (RClass _ _) _ _ |- _ =>
        apply matches_class_inv in Hc; destruct Hc as (-> & c & Ec & Hm)
    end.
    match goal with
    | Hs : matches _ _ (RStar _) _ _ |- _ =>
        apply matches_star_class in Hs; destruct Hs as (Hle & Hlen & Hall)
    end.
    assert (i < List.length input) by (apply nth_error_Some; congruence).
    split; [lia|split].
    + destruct (Nat.eq_dec (S i) j); lia.
    + rewrite (segment_cons _ Ec) by lia. simpl. now rewrite Hm, Hall.
  - intros (Hlt & Hlen & Hall).
    destruct (nth_error input i) as [c|] eqn:Ec;
      [|apply nth_error_None in Ec; lia].
    rewrite (segment_cons _ Ec) in Hall by lia. simpl in Hall.
    apply andb_prop in Hall. destruct Hall as [Hc Hall].
    apply M_cat with (j := S i).
    + econstructor; eauto.
    + apply matches_star_class. repeat split; auto; lia.
Qed.
End Pieces.

(** A literal character of a pattern without flag [i]. *)
Lemma matches_char (input : jsstring) (a : ascii) (i j : nat) :
  matches false input (RChar a) i j
  <-> j = S i /\ nth_error input i = Some (cu a).
Proof.
  unfold RChar. split.
  - intros H. apply matches_class_inv in H. destruct H as (-> & c & Hc & Hm).
    split; [reflexivity|]. unfold class_matches in Hm. simpl in Hm.
    rewrite orb_false_r in Hm. apply N.eqb_eq in Hm. congruence.
  - intros (-> & Hc). econstructor; eauto.
    unfold class_matches. simpl. now rewrite N.eqb_refl.
Qed.

Lemma dash_or_word_class (c : code_unit) :
  class_matches false false [CChar (cu "-"); CWord] c = is_dash_or_word c.
Proof.
  unfold class_matches, is_dash_or_word. simpl.
  now rewrite orb_false_r, N.eqb_sym.
Qed.

Lemma digit_class (c : code_unit) :
  class_matches false false [CDigit] c = is_digit c.
Proof. unfold class_matches. simpl. apply orb_false_r. Qed.

Lemma forallb_ext_eq {A} (f g : A -> bool) (l : list A) :
  (forall x, f x = g x) -> forallb f l = forallb g l.
Proof. intros H. induction l as [|x l IH]; simpl; [reflexivity|]. now rewrite H, IH. Qed.

Lemma matches_cat_inv (icase : bool) (input : jsstring) (a b : regex) (i k : nat) :
  matches icase input (RCat a b) i k ->
  exists j, matches icase input a i j /\ matches icase input b j k.
Proof. inversion 1; subst. eauto. Qed.

Lemma matches_opt_inv (icase : bool) (input : jsstring) (a : regex) (i j : nat) :
  matches icase input (ROpt a) i j -> matches icase input a i j \/ j = i.
Proof.
  unfold ROpt. inversion 1; subst; [now left|right].
  match goal with Hm : matches _ _ REmpty _ _ |- _ => now inversion Hm end.
Qed.

Lemma matches_bol_inv (icase : bool) (input : jsstring) (i j : nat) :
  matches icase input RBol i j -> i = 0 /\ j = 0.
Proof. inversion 1; subst. auto. Qed.

Lemma matches_eol_inv (icase : bool) (input : jsstring) (i j : nat) :
  matches icase input REol i j -> i = List.length input /\ j = i.
Proof. inversion 1; subst. auto. Qed.

Lemma nonempty_length {A} (l : list A) : 0 < List.length l -> l <> [].
Proof. intros H ->. simpl in H. lia. Qed.

Lemma length_nonempty {A} (l : list A) : l <> [] -> 0 < List.length l.
Proof. destruct l; [congruence|simpl; lia]. Qed.

Lemma nth_error_middle {A} (l1 l2 : list A) (x : A) :
  nth_error (l1 ++ x :: l2) (List.length l1) = Some x.
Proof. induction l1; simpl; auto. Qed.

(** The owner/repo prefix of the issue pattern. *)
Lemma owner_repo_spec (tok : jsstring) (p : nat) :
  matches false tok
    (RSeq [RPlus dash_or_word; RChar "/"; RPlus dash_or_word]) 0 p
  <-> p <= List.length tok /\ is_owner_repo (firstn p tok).
Proof.
  cbn [RSeq]. unfold dash_or_word. split.
  - intros H.
    apply matches_cat_inv in H. destruct H as (a & Ho & H).
    apply matches_cat_inv in H. destruct H as (b & Hs & Hr).
    apply matches_char in Hs. destruct Hs as (-> & Hs).
    apply matches_plus_class in Ho. destruct Ho as (Ha & _ & Ho).
    apply matches_plus_class in Hr. destruct Hr as (Hap & Hp & Hr).
    split; [exact Hp|].
    exists (firstn a tok), (segment tok (S a) p).
    assert (E : nth_error (firstn p tok) a = Some (cu "/")).
    { rewrite nth_error_firstn.
      destruct (Nat.ltb_spec a p); [exact Hs|lia]. }
    apply firstn_skipn_middle in E.
    rewrite firstn_firstn, segment_of_firstn in E.
    replace (Nat.min a p) with a in E by lia.
    repeat split.
    + now symmetry.
    + apply nonempty_length. rewrite length_firstn. lia.
    + apply nonempty_length. unfold segment.
      rewrite length_firstn, length_skipn. lia.
    + rewrite (@forallb_ext_eq _ _ _ _ dash_or_word_class) in Ho.
      now rewrite segment_from_start in Ho.
    + now rewrite (@forallb_ext_eq _ _ _ _ dash_or_word_class) in Hr.
  - intros (Hp & owner & repo & E & Ho & Hr & Fo & Fr).
    assert (Et : tok = owner ++ (cu "/" :: repo) ++ skipn p tok).
    { rewrite <- (firstn_skipn p tok) at 1. rewrite E.
      now rewrite <- app_assoc. }
    assert (Elen : p = List.length owner + S (List.length repo)).
    { apply (f_equal (@List.length _)) in E.
      rewrite length_firstn, length_app in E. simpl in E. lia. }
    apply length_nonempty in Ho, Hr.
    apply M_cat with (j := List.length owner).
    + apply matches_plus_class. split; [lia|split; [lia|]].
      rewrite (segment_app_eq [] owner ((cu "/" :: repo) ++ skipn p tok))
        by (auto; lia).
      now rewrite (@forallb_ext_eq _ _ _ _ dash_or_word_class).
    + apply M_cat with (j := S (List.length owner)).
      * apply matches_char. split; [reflexivity|].
        rewrite Et. apply nth_error_middle.
      * apply matches_plus_class. split; [lia|split; [lia|]].
        rewrite (segment_app_eq (owner ++ [cu "/"]) repo (skipn p tok)).
        -- now rewrite (@forallb_ext_eq _ _ _ _ dash_or_word_class).
        -- rewrite Et at 1. now rewrite <- app_assoc.
        -- rewrite length_app. simpl. lia.
        -- lia.
Qed.

(** The issue pattern matches exactly the issue references. *)
Lemma issue_pattern_spec (tok : jsstring) :
  test ISSUE_PATTERN tok = true <-> is_issue_reference tok.
Proof.
  rewrite test_spec. unfold ISSUE_PATTERN. cbn [pattern ignoreCase].
  change (RSeq [RBol;
                ROpt (RSeq [RPlus dash_or_word; RChar "/"; RPlus dash_or_word]);
                RChar "#"; RPlus (RClass false [CDigit]); REol])
    with (RCat RBol
            (RCat (ROpt (RSeq [RPlus dash_or_word; RChar "/"; RPlus dash_or_word]))
               (RCat (RChar "#") (RCat (RPlus (RClass false [CDigit])) REol)))).
  split.
  - intros (i & j & _ & H).
    apply matches_cat_inv in H. destruct H as (i0 & Hb & H).
    apply matches_bol_inv in Hb. destruct Hb as (-> & ->).
    apply matches_cat_inv in H. destruct H as (p & Hp & H).
    apply matches_cat_inv in H. destruct H as (q & Hh & H).
    apply matches_char in Hh. destruct Hh as (-> & Hh).
    apply matches_cat_inv in H. destruct H as (e & Hd & He).
    apply matches_eol_inv in He. destruct He as (-> & ->).
    apply matches_plus_class in Hd. destruct Hd as (Hlt & _ & Hd).
    exists (firstn p tok), (skipn (S p) tok). repeat split.
    + symmetry. now apply firstn_skipn_middle.
    + apply matches_opt_inv in Hp. destruct Hp as [Hp| ->]; [|now left].
      right. now apply owner_repo_spec in Hp.
    + apply nonempty_length. rewrite length_skipn. lia.
    + rewrite segment_to_end in Hd.
      now rewrite (@forallb_ext_eq _ _ _ _ digit_class) in Hd.
  - intros (prefix & digits & E & Hpre & Hd & Fd).
    apply length_nonempty in Hd.
    assert (Elen : List.length tok = List.length prefix + S (List.length digits)).
    { rewrite E, length_app. reflexivity. }
    assert (Efirst : firstn (List.length prefix) tok = prefix).
    { rewrite E. rewrite <- (Nat.add_0_r (List.length prefix)).
      rewrite firstn_app_2. simpl. apply app_nil_r. }
    exists 0, (List.length tok). split; [lia|].
    apply M_cat with (j := 0); [constructor|].
    apply M_cat with (j := List.length prefix).
    { destruct Hpre as [->|Hpre].
      - apply M_alt_r. constructor.
      - apply M_alt_l. apply owner_repo_spec. rewrite Efirst.
        split; [lia|exact Hpre]. }
    apply M_cat with (j := S (List.length prefix)).
    { apply matches_char. split; [reflexivity|].
      rewrite E. apply nth_error_middle. }
    apply M_cat with (j := List.length tok); [|constructor].
    apply matches_plus_class. split; [lia|split; [lia|]].
    rewrite (segment_app_eq (prefix ++ [cu "#"]) digits []).
    + now rewrite (@forallb_ext_eq _ _ _ _ digit_class).
    + rewrite E at 1. now rewrite <- app_assoc, app_nil_r.
    + rewrite length_app. simpl. lia.
    + lia.
Qed.

(** ** The pattern matchers *)

Lemma contains_pattern_spec (re : RegExp) (str : jsstring) :
  containsPattern re str = true
  <-> exists tok, In tok (split SPACE str) /\ test re tok = true.
Proof. unfold containsPattern. apply existsb_exists. Qed.

(** C9, as the code has it: [containsIssueNumber] answers true if and only
    if the body, split at every space character U+0020 (and at no other
    white space), has a piece that as a whole is an issue reference: an
    optional owner/repo prefix, then [#], then one or more digits. *)
Theorem contains_issue_number_iff (body : jsstring) :
  containsIssueNumber body = true
  <-> exists tok, In tok (split SPACE body) /\ is_issue_reference tok.
Proof.
  unfold containsIssueNumber. rewrite contains_pattern_spec.
  split; intros (tok & Hin & H); exists tok; split; auto;
    now apply issue_pattern_spec.
Qed.

(** C9 as stated fails: the body ["Fixes #42"], a line feed, ["Details"]
    holds the issue reference [#42] between white space, and
    [containsIssueNumber] answers false, because the piece after the
    space runs on past the line feed. *)
Lemma contains_issue_number_whitespace_counterexample :
  ~ (forall body : jsstring,
        containsIssueNumber body = true
        <-> exists tok, In tok (split_whitespace body) /\ is_issue_reference tok).
Proof.
  intros H.
  specialize (H (js "Fixes #42" ++ [10%N] ++ js "Details")).
  destruct H as [_ H].
  assert (E : containsIssueNumber (js "Fixes #42" ++ [10%N] ++ js "Details") = true).
  { apply H. exists (js "#42"). split.
    - vm_compute. tauto.
    - exists [], (js "42"). repeat split; auto. discriminate. }
  vm_compute in E. discriminate.
Qed.

(** ** The Title evaluator *)

(** C6: [_validateTitle] fails if and only if the length check is enabled
    and the length of the title is at most the required length; with the
    check disabled it passes for every title; with the entry absent the
    check is enabled and the required length is 8. *)
Theorem validate_title_fails_iff :
  (forall title checks,
      (exists e, _validateTitle title checks = Throw e)
      <-> title_check_enabled checks = true
          /\ (js_length title <= title_required_length checks)%Z)
  /\ (forall title len,
         _validateTitle title
           (Some (mkTitleChecks (Some (mkMinimumLength (Some false) len))))
         = Normal tt)
  /\ (forall title,
         (exists e, _validateTitle title None = Throw e)
         <-> (js_length title <= 8)%Z)
  /\ (forall title,
         (exists e, _validateTitle title (Some (mkTitleChecks None)) = Throw e)
         <-> (js_length title <= 8)%Z).
Proof.
  assert (H : forall title checks,
             (exists e, _validateTitle title checks = Throw e)
             <-> title_check_enabled checks = true
                 /\ (js_length title <= title_required_length checks)%Z).
  { intros title checks. unfold _validateTitle, isLongEnough.
    replace (default true
               (enabled (default no_minimum_length
                           (title_minimum_length (default no_title_checks checks)))))
      with (title_check_enabled checks)
      by (destruct checks as [[[[[?|] ?]|]]|]; reflexivity).
    replace (default DEFAULT_REQUIRED_LENGTH
               (length (default no_minimum_length
                          (title_minimum_length (default no_title_checks checks)))))
      with (title_required_length checks)
      by (destruct checks as [[[[? [?|]]|]]|]; reflexivity).
    destruct (title_check_enabled checks); simpl.
    - destruct (Z.gtb_spec (js_length title) (title_required_length checks));
        simpl.
      + split; [intros (e & He); discriminate|]. intros (_ & Hle). lia.
      + split; [split; [reflexivity|lia]|]. intros _. eexists. reflexivity.
    - split; [intros (e & He); discriminate|]. intros (Hf & _). discriminate. }
  split; [exact H|]. split; [reflexivity|]. split.
  - intros title. rewrite H. simpl. tauto.
  - intros title. rewrite H. simpl. tauto.
Qed.

(** ** The Body evaluator *)

Lemma enabled_issue_eq (checks : option BodyChecks) :
  default true (contains_issue_number (default no_body_checks checks))
  = sub_check_enabled checks CONTAINS_ISSUE_NUMBER.
Proof. destruct checks as [[? ? [?|]]|]; reflexivity. Qed.

Lemma enabled_url_eq (checks : option BodyChecks) :
  default true (contains_url (default no_body_checks checks))
  = sub_check_enabled checks CONTAINS_URL.
Proof. destruct checks as [[? [?|] ?]|]; reflexivity. Qed.

Lemma enabled_length_eq (checks : option BodyChecks) :
  default true
    (enabled (default no_minimum_length
                (body_minimum_length (default no_body_checks checks))))
  = sub_check_enabled checks MINIMUM_LENGTH.
Proof. destruct checks as [[[[[?|] ?]|] ? ?]|]; reflexivity. Qed.

Lemma required_length_eq (checks : option BodyChecks) :
  default DEFAULT_REQUIRED_LENGTH
    (length (default no_minimum_length
               (body_minimum_length (default no_body_checks checks))))
  = body_required_length checks.
Proof. destruct checks as [[[[? [?|]]|] ? ?]|]; reflexivity. Qed.

(** The loop of [_validateBody], in closed form. *)
Lemma validate_body_closed (body : jsstring) (checks : option BodyChecks) :
  _validateBody body checks
  = if existsb (fun n => sub_check_enabled checks n
                         && sub_check_result body checks n)
         body_checks_order
    then Normal tt
    else Throw (Error (js "PR's body failed check "
                         ++ first_or_undefined
                              (List.map quoted
                                 (filter (fun n => sub_check_enabled checks n
                                                   && negb (sub_check_result body checks n))
                                         body_checks_order)))).
Proof.
  unfold _validateBody.
  rewrite enabled_issue_eq, enabled_url_eq, enabled_length_eq, required_length_eq.
  unfold body_checks_order. cbn [fold_left existsb filter].
  unfold body_check_step, body_checks_mapping.
  cbn [entry_enabled fn sub_check_result]. fold (quoted CONTAINS_ISSUE_NUMBER).
  fold (quoted CONTAINS_URL). fold (quoted MINIMUM_LENGTH).
  generalize (isLongEnough body (body_required_length checks)).
  generalize (containsUrl body). generalize (containsIssueNumber body).
  generalize (sub_check_enabled checks MINIMUM_LENGTH).
  generalize (sub_check_enabled checks CONTAINS_URL).
  generalize (sub_check_enabled checks CONTAINS_ISSUE_NUMBER).
  intros [|] [|] [|] [|] [|] [|]; reflexivity.
Qed.

(** C4: [_validateBody] passes if and only if at least one of the three
    sub-checks, the issue reference, the URL or the minimum length, is
    enabled and answers true; with all three disabled it fails. *)
Theorem validate_body_passes_iff :
  (forall body checks,
      _validateBody body checks = Normal tt
      <-> (sub_check_enabled checks CONTAINS_ISSUE_NUMBER = true
           /\ containsIssueNumber body = true)
          \/ (sub_check_enabled checks CONTAINS_URL = true
              /\ containsUrl body = true)
          \/ (sub_check_enabled checks MINIMUM_LENGTH = true
              /\ isLongEnough body (body_required_length checks) = true))
  /\ (forall body len,
         exists e,
           _validateBody body
             (Some (mkBodyChecks (Some (mkMinimumLength (Some false) len))
                                 (Some false) (Some false)))
           = Throw e).
Proof.
  split.
  - intros body checks. unfold _validateBody.
    rewrite enabled_issue_eq, enabled_url_eq, enabled_length_eq,
      required_length_eq.
    change (fold_left _ body_checks_order (false, []))
      with (fold_left
              (body_check_step
                 (body_checks_mapping body
                    (sub_check_enabled checks MINIMUM_LENGTH)
                    (body_required_length checks)
                    (sub_check_enabled checks CONTAINS_URL)
                    (sub_check_enabled checks CONTAINS_ISSUE_NUMBER)))
              [CONTAINS_ISSUE_NUMBER; CONTAINS_URL; MINIMUM_LENGTH] (false, [])).
    cbn [fold_left]. unfold body_check_step, body_checks_mapping.
    cbn [entry_enabled fn].
    generalize (isLongEnough body (body_required_length checks)).
    generalize (containsUrl body). generalize (containsIssueNumber body).
    generalize (sub_check_enabled checks MINIMUM_LENGTH).
    generalize (sub_check_enabled checks CONTAINS_URL).
    generalize (sub_check_enabled checks CONTAINS_ISSUE_NUMBER).
    intros [|] [|] [|] [|] [|] [|]; cbn; intuition discriminate.
  - intros body len. rewrite validate_body_closed. eexists. reflexivity.
Qed.



(** ** The Template evaluator *)

Lemma jsstring_eqb_eq (a b : jsstring) : jsstring_eqb a b = true <-> a = b.
Proof.
  unfold jsstring_eqb. destruct (list_eq_dec N.eq_dec a b); split;
    congruence.
Qed.

Lemma differs_iff (content template : jsstring) :
  _differsFromPrTemplate content template = true
  <-> trim content <> trim template.
Proof.
  unfold _differsFromPrTemplate. rewrite negb_true_iff.
  rewrite <- not_true_iff_false, jsstring_eqb_eq. tauto.
Qed.

(** [_validateTemplate] issues the fetch and then decides on its answer. *)
Lemma validate_template_closed (github : GithubService)
    (body user repo token : jsstring) (checks : option TemplateChecks) :
  _validateTemplate github body user repo token checks
  = ([ReadPullRequestTemplate user repo token],
     match readPullRequestTemplate github user repo token with
     | Rejected e => Throw e
     | Fulfilled template =>
         if no_template template then Normal true
         else if truthy (was_adjusted (default no_template_checks checks))
                 && _differsFromPrTemplate body (default [] template)
              then Throw (Error (js "PR's body is the same as template"))
              else Normal true
     end).
Proof.
  unfold _validateTemplate, github_readPullRequestTemplate, bind, await.
  destruct (readPullRequestTemplate github user repo token) as [t|e];
    [|reflexivity].
  destruct (no_template t); [reflexivity|].
  destruct (truthy _ && _differsFromPrTemplate _ _); reflexivity.
Qed.

(** What the code does with a template and the check enabled: it fails
    exactly when the trimmed body differs from the trimmed template. *)
Lemma validate_template_fails_iff_differs (github : GithubService)
    (body user repo token template : jsstring) :
  readPullRequestTemplate github user repo token = Fulfilled (Some template) ->
  template <> [] ->
  ((exists e, outcome (_validateTemplate github body user repo token was_adjusted_on)
              = Throw e)
   <-> trim body <> trim template).
Proof.
  intros Hf Hne. rewrite validate_template_closed. unfold outcome. simpl snd.
  rewrite Hf. destruct template as [|c template]; [congruence|].
  cbn [no_template default was_adjusted was_adjusted_on truthy andb].
  destruct (_differsFromPrTemplate body (c :: template)) eqn:E.
  - split; [intros _; now apply differs_iff|]. intros _. eexists. reflexivity.
  - split; [intros (e & He); discriminate|]. intros Hd.
    apply differs_iff in Hd. congruence.
Qed.

(** C1 does not hold of the code.  With the check enabled and the template
    ["Describe your change"], a body that is the unchanged template is let
    through, and a body that was written afresh fails with the message
    that it is the same as the template. *)
Theorem validate_template_unchanged_body_passes :
  outcome (_validateTemplate (service_with_template (js "Describe your change"))
             (js "Describe your change") (js "zalando") (js "zappr") (js "token")
             was_adjusted_on)
  = Normal true
  /\ outcome (_validateTemplate (service_with_template (js "Describe your change"))
                (js "Closes #1: fix the parser") (js "zalando") (js "zappr")
                (js "token") was_adjusted_on)
     = Throw (Error (js "PR's body is the same as template")).
Proof. split; vm_compute; reflexivity. Qed.

(** The parts of C1 the code does satisfy: without a template, and with
    the check disabled or unset, the evaluator passes. *)
Lemma validate_template_passes_without_template (github : GithubService)
    (body user repo token : jsstring) (checks : option TemplateChecks)
    (template : option jsstring) :
  readPullRequestTemplate github user repo token = Fulfilled template ->
  no_template template = true
  \/ truthy (was_adjusted (default no_template_checks checks)) = false ->
  outcome (_validateTemplate github body user repo token checks) = Normal true.
Proof.
  intros Hf H. rewrite validate_template_closed. unfold outcome. simpl snd.
  rewrite Hf. destruct (no_template template); [reflexivity|].
  destruct H as [H|H]; [discriminate|]. now rewrite H.
Qed.

(** ** The orchestrator *)

(** [validate], call by call: the fetch of the template when the title
    passes, then one status write, whose answer is the answer of
    [validate]. *)
Lemma validate_closed (github : GithubService) (config : Config)
    (pr : PullRequest) (repo : Repository) (token : jsstring) :
  let user := login (owner repo) in
  let st := verdict (title_outcome config pr)
                    (template_outcome github config pr repo token)
                    (body_outcome config pr) in
  validate github config pr repo token
  = ((match title_outcome config pr with
      | Normal _ => [ReadPullRequestTemplate user (name repo) token]
      | Throw _ => []
      end)
     ++ [SetCommitStatus user (name repo) (sha (head pr)) st token],
     settled (setCommitStatus github user (name repo) (sha (head pr)) st token)).
Proof.
  cbv zeta. unfold validate, title_outcome, body_outcome, template_outcome.
  cbv zeta. rewrite validate_template_closed. unfold outcome. cbn [snd].
  destruct (_validateTitle _ _) as [[]|e1]; cbn.
  - destruct (_validateBody _ _) as [[]|e2]; cbn.
    + destruct (readPullRequestTemplate _ _ _ _) as [t|e3]; cbn.
      * destruct (no_template t); cbn.
        -- destruct (setCommitStatus _ _ _ _ _ _); reflexivity.
        -- destruct (truthy _ && _differsFromPrTemplate _ _); cbn;
             destruct (setCommitStatus _ _ _ _ _ _); reflexivity.
      * destruct (setCommitStatus _ _ _ _ _ _); reflexivity.
    + destruct (setCommitStatus _ _ _ _ _ _); reflexivity.
  - destruct (setCommitStatus _ _ _ _ _ _); reflexivity.
Qed.

Lemma verdict_cases (t : completion unit) (tpl : completion bool)
    (b : completion unit) :
  (passes t /\ passes tpl /\ passes b /\ verdict t tpl b = success_status)
  \/ (exists e, (fails_with t e \/ fails_with tpl e \/ fails_with b e)
                /\ verdict t tpl b = failure_status e).
Proof.
  unfold passes, fails_with.
  destruct t as [u|e1]; [|right; exists e1; auto].
  destruct b as [v|e2]; [|right; exists e2; auto].
  destruct tpl as [w|e3]; [|right; exists e3; auto].
  left. eauto 10.
Qed.

Lemma status_writes_validate (github : GithubService) (config : Config)
    (pr : PullRequest) (repo : Repository) (token : jsstring) :
  status_writes (trace (validate github config pr repo token))
  = [verdict (title_outcome config pr)
             (template_outcome github config pr repo token)
             (body_outcome config pr)].
Proof.
  rewrite validate_closed. unfold trace. cbn [fst].
  destruct (title_outcome config pr); reflexivity.
Qed.

Lemma failure_is_not_success : js "failure" <> js "success".
Proof. discriminate. Qed.

(** C7: [validate] issues exactly one status write.  It is the success
    status with its fixed description if and only if the three evaluators
    pass; otherwise it is a failure status whose description is the message
    of one evaluator that failed.  Its context is always
    [zappr/pr/specification]. *)
Theorem validate_writes_one_status (github : GithubService) (config : Config)
    (pr : PullRequest) (repo : Repository) (token : jsstring) :
  exists st : Status,
    status_writes (trace (validate github config pr repo token)) = [st]
    /\ context st = js "zappr/pr/specification"
    /\ ((state st = js "success"
         /\ description st = js "PR has passed specification checks")
        <-> (passes (title_outcome config pr)
             /\ passes (template_outcome github config pr repo token)
             /\ passes (body_outcome config pr)))
    /\ (~ (passes (title_outcome config pr)
           /\ passes (template_outcome github config pr repo token)
           /\ passes (body_outcome config pr)) ->
        state st = js "failure"
        /\ exists e,
             description st = message e
             /\ (fails_with (title_outcome config pr) e
                 \/ fails_with (template_outcome github config pr repo token) e
                 \/ fails_with (body_outcome config pr) e)).
Proof.
  eexists. split; [apply status_writes_validate|].
  destruct (verdict_cases (title_outcome config pr)
              (template_outcome github config pr repo token)
              (body_outcome config pr))
    as [(Ht & Htpl & Hb & ->)|(e & He & ->)].
  - split; [reflexivity|]. split; [|tauto]. split; [tauto|].
    intros _. split; reflexivity.
  - split; [reflexivity|]. split; [split|].
    + intros (Hs & _). cbn in Hs. now apply failure_is_not_success in Hs.
    + intros (Ht & Htpl & Hb). unfold passes, fails_with in *.
      destruct Ht as (? & Ht), Htpl as (? & Htpl), Hb as (? & Hb).
      destruct He as [He|[He|He]]; congruence.
    + intros _. split; [reflexivity|]. exists e. split; [reflexivity|exact He].
Qed.

(** ** The event gate *)

Lemma indexOf_ge (l : list jsstring) (x : jsstring) : (-1 <= indexOf l x)%Z.
Proof.
  induction l as [|y l IH]; simpl; [lia|].
  destruct (jsstring_eqb y x); [lia|].
  destruct (Z.eqb_spec (indexOf l x) (-1)); lia.
Qed.

Lemma indexOf_absent (l : list jsstring) (x : jsstring) :
  indexOf l x = (-1)%Z <-> ~ In x l.
Proof.
  induction l as [|y l IH]; simpl; [tauto|].
  destruct (jsstring_eqb y x) eqn:E.
  - apply jsstring_eqb_eq in E. split; [discriminate|]. tauto.
  - assert (y <> x) by (intros Heq; apply jsstring_eqb_eq in Heq; congruence).
    pose proof (indexOf_ge l x).
    destruct (Z.eqb_spec (indexOf l x) (-1)) as [Hk|Hk].
    + split; [|reflexivity]. intros _. tauto.
    + split; [lia|]. tauto.
Qed.

Lemma not_actionable_iff (action : jsstring) (pr : PullRequest) :
  not_actionable action (Some pr) = false <-> eligible action pr.
Proof.
  unfold not_actionable, eligible. rewrite orb_false_iff, negb_false_iff.
  rewrite jsstring_eqb_eq, Z.eqb_neq, indexOf_absent. split.
  - intros (Ha & Hs). split; [|now symmetry].
    destruct (in_dec (list_eq_dec N.eq_dec) action ACTIONS); tauto.
  - intros (Ha & Hs). split; [tauto|now symmetry].
Qed.

(** For an eligible event [execute] is [validate]. *)
Lemma execute_eligible (github : GithubService) (config : Config)
    (payload : HookPayload) (pr : PullRequest) (token : jsstring) :
  pull_request payload = Some pr ->
  eligible (action payload) pr ->
  trace (execute github config payload token)
  = trace (validate github config pr (repository payload) token)
  /\ outcome (execute github config payload token)
     = match outcome (validate github config pr (repository payload) token) with
       | Normal _ => Normal tt
       | Throw e => Throw e
       end.
Proof.
  intros Hpr He. apply not_actionable_iff in He. unfold execute.
  rewrite Hpr, He. unfold bind, ret, trace, outcome.
  destruct (validate github config pr (repository payload) token) as [t [a|e]];
    cbn; rewrite ?app_nil_r; auto.
Qed.

(** C8: for an event whose action is not one of [ACTIONS] or whose pull
    request is not open, [execute] makes no call to the hosting service,
    neither a status write nor the fetch of the Template evaluator, and
    returns. *)
Theorem execute_ineligible_is_noop (github : GithubService) (config : Config)
    (payload : HookPayload) (pr : PullRequest) (token : jsstring) :
  pull_request payload = Some pr ->
  ~ In (action payload) ACTIONS \/ pr_state pr <> js "open" ->
  execute github config payload token = ([], Normal tt).
Proof.
  intros Hpr Hn. unfold execute. rewrite Hpr.
  destruct (not_actionable (action payload) (Some pr)) eqn:E.
  - reflexivity.
  - apply not_actionable_iff in E. destruct E. tauto.
Qed.

Lemma execute_ineligible_is_noop_witness :
  execute failing_fetch_service no_config
    (mkHookPayload (js "closed")
       (Some (sample_pull_request (js "Fix bug") (js "Fixes #42")))
       sample_repository)
    (js "token")
  = ([], Normal tt).
Proof.
  apply (execute_ineligible_is_noop failing_fetch_service no_config
           (mkHookPayload (js "closed")
              (Some (sample_pull_request (js "Fix bug") (js "Fixes #42")))
              sample_repository)
           (pr := sample_pull_request (js "Fix bug") (js "Fixes #42"))
           (js "token")).
  - reflexivity.
  - left. simpl. intros [H|[H|[H|[H|[]]]]]; discriminate.
Defined.

(** C10: for a payload without [pull_request], [execute] throws: the
    branch of the events that are not to be checked reads the number of
    the pull request for its log line.  No call is made. *)
Theorem execute_without_pull_request_throws (github : GithubService)
    (config : Config) (payload : HookPayload) (token : jsstring) :
  pull_request payload = None ->
  exists e, execute github config payload token = ([], Throw e).
Proof.
  intros Hpr. unfold execute, not_actionable. rewrite Hpr.
  rewrite orb_true_r. eexists. reflexivity.
Qed.

Lemma execute_without_pull_request_throws_witness :
  exists e,
    execute failing_fetch_service no_config
      (mkHookPayload (js "opened") None sample_repository) (js "token")
    = ([], Throw e).
Proof.
  apply (execute_without_pull_request_throws failing_fetch_service no_config
           (mkHookPayload (js "opened") None sample_repository) (js "token")).
  reflexivity.
Defined.

(** ** Errors of the collaborator and the order of the evaluators *)

(** C2 as stated fails: the fetch of the template fails with
    [Bad credentials] for an [opened] event on an open pull request whose
    title and body satisfy their rules; [execute] returns normally, after
    a status write with state [failure] and the message of that error as
    its description. *)
Lemma fetch_failure_is_written_as_failure_status :
  eligible (js "opened")
           (sample_pull_request (js "Implement login flow")
              (js "See https://example.com/design for details"))
  /\ readPullRequestTemplate failing_fetch_service (js "zalando") (js "zappr")
                             (js "token")
     = Rejected bad_credentials
  /\ outcome (execute failing_fetch_service no_config
                (sample_payload (js "Implement login flow")
                   (js "See https://example.com/design for details"))
                (js "token"))
     = Normal tt
  /\ status_writes
       (trace (execute failing_fetch_service no_config
                 (sample_payload (js "Implement login flow")
                    (js "See https://example.com/design for details"))
                 (js "token")))
     = [{| description := js "Bad credentials";
           state := js "failure";
           context := js "zappr/pr/specification" |}].
Proof.
  split; [split; [simpl; tauto|reflexivity]|].
  split; [reflexivity|]. split; vm_compute; reflexivity.
Qed.

(** C2, as the code has it: for an eligible event, a failure of the fetch
    of the template does not leave [execute] as an error.  [execute] makes
    exactly one status write, with state [failure], and ends as that write
    ends; when the title and the body satisfy their rules, the description
    is the message of the error of the fetch. *)
Theorem fetch_failure_becomes_failure_status (github : GithubService)
    (config : Config) (payload : HookPayload) (pr : PullRequest)
    (token : jsstring) (e : js_error) :
  pull_request payload = Some pr ->
  eligible (action payload) pr ->
  readPullRequestTemplate github (login (owner (repository payload)))
                          (name (repository payload)) token
  = Rejected e ->
  exists st : Status,
    status_writes (trace (execute github config payload token)) = [st]
    /\ state st = js "failure"
    /\ (passes (title_outcome config pr) -> passes (body_outcome config pr) ->
        description st = message e)
    /\ outcome (execute github config payload token)
       = match setCommitStatus github (login (owner (repository payload)))
                 (name (repository payload)) (sha (head pr)) st token with
         | Fulfilled _ => Normal tt
         | Rejected e' => Throw e'
         end.
Proof.
  intros Hpr He Hf.
  destruct (execute_eligible github config payload token Hpr He) as [-> ->].
  rewrite status_writes_validate. rewrite validate_closed. unfold outcome.
  cbn [snd].
  assert (Htpl : template_outcome github config pr (repository payload) token
                 = Throw e).
  { unfold template_outcome. rewrite validate_template_closed.
    unfold outcome. cbn [snd]. now rewrite Hf. }
  rewrite Htpl. eexists. split; [reflexivity|].
  unfold passes.
  destruct (title_outcome config pr) as [[]|e1];
    destruct (body_outcome config pr) as [[]|e2]; cbn [verdict];
    (split; [reflexivity|]); (split; [|now destruct (setCommitStatus _ _ _ _ _ _)]).
  - reflexivity.
  - intros _ (? & ?). discriminate.
  - intros (? & ?). discriminate.
  - intros (? & ?). discriminate.
Qed.

Lemma fetch_failure_becomes_failure_status_witness :
  exists st : Status,
    status_writes
      (trace (execute failing_fetch_service no_config
                (sample_payload (js "Implement login flow") (js "Closes #12 for good"))
                (js "token")))
    = [st]
    /\ state st = js "failure"
    /\ (passes (title_outcome no_config
                  (sample_pull_request (js "Implement login flow") (js "Closes #12 for good"))) ->
        passes (body_outcome no_config
                  (sample_pull_request (js "Implement login flow") (js "Closes #12 for good"))) ->
        description st = message bad_credentials)
    /\ outcome (execute failing_fetch_service no_config
                  (sample_payload (js "Implement login flow") (js "Closes #12 for good"))
                  (js "token"))
       = match setCommitStatus failing_fetch_service (js "zalando") (js "zappr")
                 (js "c0ffee") st (js "token") with
         | Fulfilled _ => Normal tt
         | Rejected e' => Throw e'
         end.
Proof.
  apply (fetch_failure_becomes_failure_status failing_fetch_service no_config
           (sample_payload (js "Implement login flow") (js "Closes #12 for good"))
           (pr := sample_pull_request (js "Implement login flow") (js "Closes #12 for good"))
           (js "token") (e := bad_credentials)).
  - reflexivity.
  - split; [simpl; tauto|reflexivity].
  - reflexivity.
Defined.

(** C3 as stated fails: for an [opened] event on an open pull request with
    the title ["Fix bug"], which is too short, the check runs and reports
    the failure of the title, and the fetch of the template is not
    issued. *)
Lemma short_title_skips_template_fetch :
  eligible (js "opened")
           (sample_pull_request (js "Fix bug") (js "Fixes #42 and adds tests"))
  /\ template_fetches
       (trace (execute (service_with_template (js "Describe your change"))
                 no_config
                 (sample_payload (js "Fix bug") (js "Fixes #42 and adds tests"))
                 (js "token")))
     = 0
  /\ List.map description
       (status_writes
          (trace (execute (service_with_template (js "Describe your change"))
                    no_config
                    (sample_payload (js "Fix bug") (js "Fixes #42 and adds tests"))
                    (js "token"))))
     = [js "PR's title is too short (7/8)"].
Proof.
  split; [split; [simpl; tauto|reflexivity]|].
  split; vm_compute; reflexivity.
Qed.

(** C3, as the code has it: the evaluators are called in the order Title,
    Template, Body, and a failure of the Title evaluator ends the run at
    once.  The fetch of the template is issued once when the Title
    evaluator passes, whether the Body evaluator passes or fails, and is
    not issued when the Title evaluator fails; the status then written is
    the failure of the title. *)
Theorem template_fetch_iff_title_passes (github : GithubService)
    (config : Config) (pr : PullRequest) (repo : Repository) (token : jsstring) :
  template_fetches (trace (validate github config pr repo token))
  = match title_outcome config pr with
    | Normal _ => 1
    | Throw _ => 0
    end
  /\ (forall e,
         fails_with (title_outcome config pr) e ->
         trace (validate github config pr repo token)
         = [SetCommitStatus (login (owner repo)) (name repo) (sha (head pr))
                            (failure_status e) token])
  /\ (forall e,
         passes (title_outcome config pr) ->
         fails_with (body_outcome config pr) e ->
         trace (validate github config pr repo token)
         = [ReadPullRequestTemplate (login (owner repo)) (name repo) token;
            SetCommitStatus (login (owner repo)) (name repo) (sha (head pr))
                            (failure_status e) token]).
Proof.
  rewrite validate_closed. unfold trace, passes, fails_with. cbn [fst].
  destruct (title_outcome config pr) as [[]|e1].
  - split; [reflexivity|]. split; [discriminate|].
    intros e _ ->. reflexivity.
  - split; [reflexivity|]. split.
    + intros e [= ->]. reflexivity.
    + intros e (? & ?). discriminate.
Qed.

(** ** The scenarios of the specification, run on the code *)

Example scenario_short_title :
  List.map description
    (status_writes
       (trace (execute (service_with_template []) no_config
                 (sample_payload (js "Fix bug") (js "Fixes #42 and adds tests"))
                 (js "token"))))
  = [js "PR's title is too short (7/8)"].
Proof. vm_compute. reflexivity. Qed.

Example scenario_url_in_body :
  status_writes
    (trace (execute (service_with_template []) no_config
              (sample_payload (js "Implement login flow")
                 (js "See https://example.com/design for details"))
              (js "token")))
  = [success_status].
Proof. vm_compute. reflexivity. Qed.

Example scenario_short_body :
  List.map description
    (status_writes
       (trace (execute (service_with_template []) no_config
                 (sample_payload (js "Implement login flow") (js "short"))
                 (js "token"))))
  = [js "PR's body failed check 'contains-issue-number'"].
Proof. vm_compute. reflexivity. Qed.

Example scenario_no_check_enabled :
  _validateBody (js "See https://example.com/design for details")
    (Some (mkBodyChecks (Some (mkMinimumLength (Some false) None))
                        (Some false) (Some false)))
  = Throw (Error (js "PR's body failed check undefined")).
Proof. vm_compute. reflexivity. Qed.

(* ================================================================== *)
(** * Further properties of the code *)

(** ** Pieces of a body *)

Lemma split_nonempty (sep : code_unit) (s : jsstring) : split sep s <> [].
Proof.
  destruct s as [|c s]; simpl; [discriminate|].
  destruct (c =? sep)%N; [discriminate|].
  destruct (split sep s); discriminate.
Qed.

Lemma split_app_sep (sep : code_unit) (a b : jsstring) :
  split sep (a ++ sep :: b) = split sep a ++ split sep b.
Proof.
  induction a as [|c a IH]; simpl.
  - now rewrite N.eqb_refl.
  - destruct (c =? sep)%N; [now rewrite IH|].
    rewrite IH. pose proof (split_nonempty sep a) as Hne.
    destruct (split sep a) as [|tok toks]; [congruence|reflexivity].
Qed.

Lemma split_In (sep c : code_unit) (s tok : jsstring) :
  In tok (split sep s) -> In c tok -> In c s.
Proof.
  revert tok. induction s as [|x s IH]; simpl; intros tok Htok Hc.
  - destruct Htok as [<-|[]]. destruct Hc.
  - destruct (x =? sep)%N.
    + destruct Htok as [<-|Htok]; [destruct Hc|]. right. eauto.
    + pose proof (split_nonempty sep s) as Hne.
      destruct (split sep s) as [|t ts]; [congruence|].
      destruct Htok as [<-|Htok].
      * destruct Hc as [->|Hc]; [now left|]. right. apply (IH t); simpl; auto.
      * right. apply (IH tok); simpl; auto.
Qed.

(** X1: text joined by a space is looked at piece by piece: a pattern is
    found in [a], a space, [b] exactly when it is found in [a] or in
    [b]. *)
Theorem contains_pattern_across_space (re : RegExp) (a b : jsstring) :
  containsPattern re (a ++ SPACE :: b)
  = containsPattern re a || containsPattern re b.
Proof.
  unfold containsPattern. rewrite split_app_sep. apply existsb_app.
Qed.

(** What a piece must hold for a pattern to be found in the body. *)
Lemma contains_pattern_char (re : RegExp) (P : code_unit -> Prop) (body : jsstring) :
  (forall tok, test re tok = true -> exists c, P c /\ In c tok) ->
  containsPattern re body = true ->
  exists c, P c /\ In c body.
Proof.
  intros Htok H. apply contains_pattern_spec in H.
  destruct H as (tok & Hin & Ht). destruct (Htok tok Ht) as (c & Hp & Hc).
  exists c. split; [exact Hp|]. eapply split_In; eauto.
Qed.

Lemma issue_reference_has_hash (tok : jsstring) :
  test ISSUE_PATTERN tok = true -> exists c, c = cu "#" /\ In c tok.
Proof.
  intros H. apply issue_pattern_spec in H.
  destruct H as (prefix & digits & -> & _). exists (cu "#").
  split; [reflexivity|]. apply in_or_app. right. now left.
Qed.

Lemma matches_alt_inv (icase : bool) (input : jsstring) (a b : regex) (i j : nat) :
  matches icase input (RAlt a b) i j ->
  matches icase input a i j \/ matches icase input b i j.
Proof. inversion 1; subst; auto. Qed.

Lemma canonicalize_fixes (a c : code_unit) :
  is_lower a = false -> is_upper a = false ->
  canonicalize a = canonicalize c -> c = a.
Proof.
  unfold canonicalize, is_lower, is_upper, in_range.
  destruct (N.leb_spec 97 a), (N.leb_spec a 122), (N.leb_spec 65 a),
    (N.leb_spec a 90); simpl; try discriminate; intros _ _;
    range_cases c.
Qed.

(** A literal character that is not a letter, under flag [i]. *)
Lemma matches_literal_ignore_case (input : jsstring) (a : code_unit) (i j : nat) :
  is_lower a = false -> is_upper a = false ->
  matches true input (RClass false [CChar a]) i j ->
  nth_error input i = Some a.
Proof.
  intros Hl Hu H. apply matches_class_inv in H.
  destruct H as (_ & c & Hc & Hm). unfold class_matches in Hm. simpl in Hm.
  rewrite orb_false_r in Hm. apply N.eqb_eq in Hm.
  apply canonicalize_fixes in Hm; auto. congruence.
Qed.

Lemma url_has_colon_or_dot (tok : jsstring) :
  test URL_PATTERN tok = true ->
  exists c, (c = cu ":" \/ c = cu ".") /\ In c tok.
Proof.
  intros H. apply test_spec in H. destruct H as (i & j & _ & H).
  unfold URL_PATTERN in H. cbn [pattern ignoreCase RSeq] in H.
  apply matches_cat_inv in H. destruct H as (i0 & _ & H).
  apply matches_cat_inv in H. destruct H as (i1 & H & _).
  apply matches_alt_inv in H. destruct H as [H|H];
    [|apply matches_alt_inv in H; destruct H as [H|H]].
  - unfold url_scheme in H. cbn [RSeq] in H.
    apply matches_cat_inv in H. destruct H as (k1 & _ & H).
    apply matches_cat_inv in H. destruct H as (k2 & _ & H).
    apply matches_cat_inv in H. destruct H as (k3 & H & _).
    apply matches_literal_ignore_case in H; [|reflexivity|reflexivity].
    exists (cu ":"). split; [now left|]. eapply nth_error_In; eauto.
  - unfold url_www in H. cbn [RSeq] in H.
    apply matches_cat_inv in H. destruct H as (k1 & _ & H).
    apply matches_cat_inv in H. destruct H as (k2 & _ & H).
    apply matches_cat_inv in H. destruct H as (k3 & _ & H).
    apply matches_cat_inv in H. destruct H as (k4 & _ & H).
    apply matches_literal_ignore_case in H; [|reflexivity|reflexivity].
    exists (cu "."). split; [now right|]. eapply nth_error_In; eauto.
  - unfold url_domain in H. cbn [RSeq] in H.
    apply matches_cat_inv in H. destruct H as (k1 & _ & H).
    apply matches_cat_inv in H. destruct H as (k2 & H & _).
    apply matches_literal_ignore_case in H; [|reflexivity|reflexivity].
    exists (cu "."). split; [now right|]. eapply nth_error_In; eauto.
Qed.

(** X2: an issue number is only ever found in a body that holds the
    character [#]. *)
Theorem contains_issue_number_needs_hash (body : jsstring) :
  containsIssueNumber body = true -> In (cu "#") body.
Proof.
  intros H.
  destruct (contains_pattern_char ISSUE_PATTERN (fun c => c = cu "#") body
              issue_reference_has_hash H) as (c & -> & Hc).
  exact Hc.
Qed.

Lemma contains_issue_number_needs_hash_witness :
  In (cu "#") (js "Fixes #42 and adds tests").
Proof.
  apply (contains_issue_number_needs_hash (js "Fixes #42 and adds tests")).
  vm_compute. reflexivity.
Defined.

(** X3: a URL is only ever found in a body that holds a colon or a full
    stop: each of the three ways the pattern lets a URL begin (scheme,
    [www], domain) needs one. *)
Theorem contains_url_needs_colon_or_dot (body : jsstring) :
  containsUrl body = true -> In (cu ":") body \/ In (cu ".") body.
Proof.
  intros H.
  destruct (contains_pattern_char URL_PATTERN
              (fun c => c = cu ":" \/ c = cu ".") body
              url_has_colon_or_dot H) as (c & [->| ->] & Hc); auto.
Qed.

Lemma contains_url_needs_colon_or_dot_witness :
  In (cu ":") (js "See https://example.com/design for details")
  \/ In (cu ".") (js "See https://example.com/design for details").
Proof.
  apply (contains_url_needs_colon_or_dot
           (js "See https://example.com/design for details")).
  vm_compute. reflexivity.
Defined.

Lemma no_hash_no_issue_number (body : jsstring) :
  ~ In (cu "#") body -> containsIssueNumber body = false.
Proof.
  intros Hn. destruct (containsIssueNumber body) eqn:E; [|reflexivity].
  destruct (contains_pattern_char ISSUE_PATTERN (fun c => c = cu "#") body
              issue_reference_has_hash E) as (c & -> & Hc).
  tauto.
Qed.

Lemma no_colon_no_dot_no_url (body : jsstring) :
  ~ In (cu ":") body -> ~ In (cu ".") body -> containsUrl body = false.
Proof.
  intros Hc Hd. destruct (containsUrl body) eqn:E; [|reflexivity].
  destruct (contains_pattern_char URL_PATTERN
              (fun c => c = cu ":" \/ c = cu ".") body
              url_has_colon_or_dot E) as (c & [->| ->] & Hin); tauto.
Qed.

(** X4: for a body without [#], colon and full stop, only the length
    counts: whatever the configuration, [_validateBody] passes exactly
    when the minimum-length check is enabled and the body is longer than
    the required length. *)
Theorem validate_body_plain_text (body : jsstring) (checks : option BodyChecks) :
  ~ In (cu "#") body -> ~ In (cu ":") body -> ~ In (cu ".") body ->
  (_validateBody body checks = Normal tt
   <-> sub_check_enabled checks MINIMUM_LENGTH = true
       /\ (body_required_length checks < js_length body)%Z).
Proof.
  intros Hh Hc Hd. rewrite validate_body_closed.
  unfold body_checks_order. cbn [existsb sub_check_result].
  rewrite (no_hash_no_issue_number body Hh), (no_colon_no_dot_no_url body Hc Hd).
  rewrite !andb_false_r, !orb_false_r. cbn [orb]. unfold isLongEnough.
  destruct (sub_check_enabled checks MINIMUM_LENGTH); cbn [andb].
  - destruct (Z.gtb_spec (js_length body) (body_required_length checks)).
    + split; [intros _; split; [reflexivity|lia]|reflexivity].
    + split; [discriminate|]. intros (_ & Hlt). lia.
  - split; [discriminate|]. intros (Hf & _). discriminate.
Qed.

Lemma validate_body_plain_text_witness :
  _validateBody (js "Reworked the parser") None = Normal tt
  <-> sub_check_enabled None MINIMUM_LENGTH = true
      /\ (body_required_length None < js_length (js "Reworked the parser"))%Z.
Proof.
  apply (validate_body_plain_text (js "Reworked the parser") None);
    vm_compute; intuition discriminate.
Defined.

(** ** White space around the body and the template *)

Lemma trim_start_whitespace (ws s : jsstring) :
  forallb is_whitespace ws = true -> trim_start (ws ++ s) = trim_start s.
Proof.
  induction ws as [|c ws IH]; simpl; [reflexivity|].
  intros H. apply andb_prop in H. destruct H as [Hc Hws].
  rewrite Hc. auto.
Qed.

Lemma trim_start_app (s ws : jsstring) :
  trim_start s <> [] -> trim_start (s ++ ws) = trim_start s ++ ws.
Proof.
  induction s as [|c s IH]; simpl; [congruence|].
  destruct (is_whitespace c); auto.
Qed.

Lemma trim_start_all_whitespace (s : jsstring) :
  forallb is_whitespace s = true -> trim_start s = [].
Proof.
  intros H. rewrite <- (app_nil_r s). now rewrite trim_start_whitespace.
Qed.

Lemma trim_start_nil_whitespace (s : jsstring) :
  trim_start s = [] -> forallb is_whitespace s = true.
Proof.
  induction s as [|c s IH]; simpl; [reflexivity|].
  destruct (is_whitespace c); [exact IH|discriminate].
Qed.

Lemma forallb_rev {A} (f : A -> bool) (l : list A) :
  forallb f (rev l) = forallb f l.
Proof.
  induction l as [|x l IH]; simpl; [reflexivity|].
  rewrite forallb_app, IH. simpl. rewrite andb_true_r. apply andb_comm.
Qed.

Lemma trim_whitespace_around (ws1 ws2 s : jsstring) :
  forallb is_whitespace ws1 = true -> forallb is_whitespace ws2 = true ->
  trim (ws1 ++ s ++ ws2) = trim s.
Proof.
  intros H1 H2. unfold trim. rewrite trim_start_whitespace by exact H1.
  destruct (trim_start s) as [|c t] eqn:E.
  - apply trim_start_nil_whitespace in E.
    assert (Ha : trim_start (s ++ ws2) = []).
    { apply trim_start_all_whitespace. now rewrite forallb_app, H2, E. }
    now rewrite Ha.
  - rewrite trim_start_app by congruence. rewrite E, rev_app_distr.
    rewrite trim_start_whitespace; [reflexivity|].
    now rewrite forallb_rev.
Qed.

(** X5: white space before and after the body or the template does not
    count in their comparison, and a text never differs from itself. *)
Theorem differs_ignores_outer_whitespace (ws1 ws2 ws3 ws4 content template : jsstring) :
  forallb is_whitespace ws1 = true -> forallb is_whitespace ws2 = true ->
  forallb is_whitespace ws3 = true -> forallb is_whitespace ws4 = true ->
  _differsFromPrTemplate (ws1 ++ content ++ ws2) (ws3 ++ template ++ ws4)
  = _differsFromPrTemplate content template
  /\ _differsFromPrTemplate (ws1 ++ content ++ ws2) content = false.
Proof.
  intros H1 H2 H3 H4. unfold _differsFromPrTemplate.
  rewrite !trim_whitespace_around by assumption.
  split; [reflexivity|].
  apply negb_false_iff. now apply jsstring_eqb_eq.
Qed.

Lemma differs_ignores_outer_whitespace_witness :
  _differsFromPrTemplate ([10%N] ++ js "Describe your change" ++ js "  ")
                         ([] ++ js "Describe your change" ++ [13%N; 10%N])
  = _differsFromPrTemplate (js "Describe your change") (js "Describe your change")
  /\ _differsFromPrTemplate ([10%N] ++ js "Describe your change" ++ js "  ")
                            (js "Describe your change")
     = false.
Proof.
  apply (differs_ignores_outer_whitespace [10%N] (js "  ") [] [13%N; 10%N]
           (js "Describe your change") (js "Describe your change"));
    reflexivity.
Defined.

(** ** The case of letters in a URL *)

Ltac compare_cases c :=
  destruct (N.leb_spec 97 c), (N.leb_spec c 122); simpl;
  repeat match goal with
         | |- context [(?a <=? ?b)%N] => destruct (N.leb_spec a b); simpl in *
         | |- context [(?a =? ?b)%N] => destruct (N.eqb_spec a b); simpl in *
         end;
  try reflexivity; try lia.

Lemma is_word_char_canonicalize (c : code_unit) :
  is_word_char (canonicalize c) = is_word_char c.
Proof.
  unfold canonicalize, is_word_char, is_lower, is_upper, is_digit, in_range.
  compare_cases c.
Qed.

Lemma is_digit_canonicalize (c : code_unit) :
  is_digit (canonicalize c) = is_digit c.
Proof.
  unfold canonicalize, is_lower, is_digit, in_range. compare_cases c.
Qed.

Lemma whitespace_is_no_letter (c : code_unit) :
  is_whitespace c = true -> (c <= 32 \/ 160 <= c)%N.
Proof.
  unfold is_whitespace.
  rewrite !orb_true_iff, !andb_true_iff, !N.leb_le, !N.eqb_eq. lia.
Qed.

Lemma is_whitespace_canonicalize (c : code_unit) :
  is_whitespace (canonicalize c) = is_whitespace c.
Proof.
  unfold canonicalize. destruct (is_lower c) eqn:E; [|reflexivity].
  unfold is_lower, in_range in E. apply andb_prop in E.
  destruct E as [E1 E2]. apply N.leb_le in E1, E2.
  destruct (is_whitespace (c - 32)%N) eqn:W1, (is_whitespace c) eqn:W2;
    try reflexivity;
    repeat match goal with
           | W : is_whitespace _ = true |- _ => apply whitespace_is_no_letter in W
           end; lia.
Qed.

Lemma space_canonicalize (c : code_unit) :
  (canonicalize c =? SPACE)%N = (c =? SPACE)%N.
Proof. unfold canonicalize, is_lower, in_range, SPACE. compare_cases c. Qed.

Lemma item_matches_canonicalize (it : class_item) (c : code_unit) :
  item_matches true it (canonicalize c) = item_matches true it c.
Proof.
  destruct it; simpl.
  - now rewrite canonicalize_idempotent.
  - now rewrite canonicalize_idempotent.
  - apply is_word_char_canonicalize.
  - apply is_digit_canonicalize.
  - apply is_whitespace_canonicalize.
Qed.

Lemma class_matches_canonicalize (negated : bool) (items : list class_item)
    (c : code_unit) :
  class_matches true negated items (canonicalize c)
  = class_matches true negated items c.
Proof.
  unfold class_matches. f_equal.
  induction items as [|it items IH]; simpl; [reflexivity|].
  now rewrite item_matches_canonicalize, IH.
Qed.

Lemma is_word_at_canonicalize (input : jsstring) (i : nat) :
  is_word_at (List.map canonicalize input) i = is_word_at input i.
Proof.
  unfold is_word_at. rewrite nth_error_map.
  destruct (nth_error input i); simpl; [apply is_word_char_canonicalize|reflexivity].
Qed.

Lemma sweep_ext (f g : nat -> list nat) :
  (forall i, f i = g i) ->
  forall n p reach, sweep f n p reach = sweep g n p reach.
Proof.
  intros H. induction n as [|n IH]; simpl; intros p reach; [reflexivity|].
  unfold progress. now rewrite H, IH.
Qed.

Lemma cat_fold_ext (f g : nat -> list nat) (l : list nat) :
  (forall i, f i = g i) ->
  fold_right (fun j acc => union acc (f j)) [] l
  = fold_right (fun j acc => union acc (g j)) [] l.
Proof.
  intros H. induction l as [|x l IH]; simpl; [reflexivity|].
  now rewrite H, IH.
Qed.

(** Under flag [i] the matcher does not see the case of the input. *)
Lemma match_from_ignore_case (input : jsstring) (r : regex) :
  forall i,
    match_from true (List.map canonicalize input) r i = match_from true input r i.
Proof.
  induction r as [|neg items|a IHa b IHb|a IHa b IHb|a IHa| | |];
    intros i; simpl.
  - reflexivity.
  - rewrite nth_error_map. destruct (nth_error input i); simpl; [|reflexivity].
    now rewrite class_matches_canonicalize.
  - rewrite IHa. now apply cat_fold_ext.
  - now rewrite IHa, IHb.
  - rewrite length_map. now apply sweep_ext.
  - reflexivity.
  - now rewrite length_map.
  - unfold at_word_boundary. rewrite is_word_at_canonicalize.
    destruct i; [reflexivity|]. now rewrite is_word_at_canonicalize.
Qed.

Lemma existsb_ext_eq {A} (f g : A -> bool) (l : list A) :
  (forall x, f x = g x) -> existsb f l = existsb g l.
Proof.
  intros H. induction l as [|x l IH]; simpl; [reflexivity|]. now rewrite H, IH.
Qed.

Lemma test_ignore_case (re : RegExp) (str : jsstring) :
  ignoreCase re = true ->
  test re (List.map canonicalize str) = test re str.
Proof.
  intros Hi. unfold test. rewrite Hi, length_map.
  apply existsb_ext_eq. intros i. now rewrite match_from_ignore_case.
Qed.

Lemma split_canonicalize (s : jsstring) :
  split SPACE (List.map canonicalize s)
  = List.map (List.map canonicalize) (split SPACE s).
Proof.
  induction s as [|c s IH]; simpl; [reflexivity|].
  rewrite space_canonicalize, IH.
  destruct (c =? SPACE)%N; [reflexivity|].
  destruct (split SPACE s); reflexivity.
Qed.

Lemma contains_pattern_ignore_case (re : RegExp) (str : jsstring) :
  ignoreCase re = true ->
  containsPattern re (List.map canonicalize str) = containsPattern re str.
Proof.
  intros Hi. unfold containsPattern. rewrite split_canonicalize.
  induction (split SPACE str) as [|tok toks IH]; simpl; [reflexivity|].
  now rewrite test_ignore_case, IH.
Qed.

(** X6: the search for a URL does not see the case of ASCII letters: two
    bodies that differ only in the case of their letters both hold a URL
    or both hold none. *)
Theorem contains_url_ignores_case (body1 body2 : jsstring) :
  List.map canonicalize body1 = List.map canonicalize body2 ->
  containsUrl body1 = containsUrl body2.
Proof.
  intros H. unfold containsUrl.
  rewrite <- (contains_pattern_ignore_case URL_PATTERN body1) by reflexivity.
  rewrite <- (contains_pattern_ignore_case URL_PATTERN body2) by reflexivity.
  now rewrite H.
Qed.

Lemma contains_url_ignores_case_witness :
  containsUrl (js "see HTTP://Example.COM/Design")
  = containsUrl (js "See http://example.com/design").
Proof.
  apply (contains_url_ignores_case (js "see HTTP://Example.COM/Design")
           (js "See http://example.com/design")).
  reflexivity.
Defined.

(** ** The Template evaluator and the fetch *)

(** X7: when the hosting service answers no template ([undefined],
    [null] or the empty string), or when [was-adjusted] is absent or
    false, [_validateTemplate] passes for every body, after its one
    fetch. *)
Theorem validate_template_nothing_to_compare (github : GithubService)
    (body user repo token : jsstring) (checks : option TemplateChecks)
    (template : option jsstring) :
  readPullRequestTemplate github user repo token = Fulfilled template ->
  template = None \/ template = Some []
  \/ was_adjusted (default no_template_checks checks) = None
  \/ was_adjusted (default no_template_checks checks) = Some false ->
  _validateTemplate github body user repo token checks
  = ([ReadPullRequestTemplate user repo token], Normal true).
Proof.
  intros Hf H. rewrite validate_template_closed, Hf.
  destruct H as [->|[->|[H|H]]]; try reflexivity;
    rewrite H; destruct (no_template template); reflexivity.
Qed.

Lemma validate_template_nothing_to_compare_witness :
  _validateTemplate (service_with_template []) (js "Closes #1")
    (js "zalando") (js "zappr") (js "token") was_adjusted_on
  = ([ReadPullRequestTemplate (js "zalando") (js "zappr") (js "token")],
     Normal true).
Proof.
  apply validate_template_nothing_to_compare with (template := Some []).
  - reflexivity.
  - right. left. reflexivity.
Defined.

(** X8: [_validateTemplate] issues the fetch of the template, once and for
    the repository it is given, whatever the configuration and the body,
    also when the check is not enabled; and when the fetch fails, the
    evaluator fails with the error of the fetch. *)
Theorem validate_template_fetches_once (github : GithubService)
    (body user repo token : jsstring) (checks : option TemplateChecks) :
  trace (_validateTemplate github body user repo token checks)
  = [ReadPullRequestTemplate user repo token]
  /\ (forall e,
         readPullRequestTemplate github user repo token = Rejected e ->
         outcome (_validateTemplate github body user repo token checks) = Throw e).
Proof.
  rewrite validate_template_closed. split; [reflexivity|].
  intros e He. unfold outcome. cbn [snd]. now rewrite He.
Qed.

(** ** Which failure is reported *)

(** X9: when several evaluators fail, the status written is the failure
    of the title if the title fails, else the failure of the body if the
    body fails, else the failure of the template. *)
Theorem validate_failure_precedence (github : GithubService) (config : Config)
    (pr : PullRequest) (repo : Repository) (token : jsstring) :
  (forall e,
      fails_with (title_outcome config pr) e ->
      status_writes (trace (validate github config pr repo token))
      = [failure_status e])
  /\ (forall e,
         passes (title_outcome config pr) ->
         fails_with (body_outcome config pr) e ->
         status_writes (trace (validate github config pr repo token))
         = [failure_status e])
  /\ (forall e,
         passes (title_outcome config pr) ->
         passes (body_outcome config pr) ->
         fails_with (template_outcome github config pr repo token) e ->
         status_writes (trace (validate github config pr repo token))
         = [failure_status e]).
Proof.
  rewrite status_writes_validate. unfold passes, fails_with.
  repeat split.
  - intros e ->. reflexivity.
  - intros e (u & ->) ->. reflexivity.
  - intros e (u & ->) (v & ->) ->. reflexivity.
Qed.

(** ** [execute] and the status write *)

(** X10: for a payload with a pull request, [execute] writes a status
    exactly when the action is one of [ACTIONS] and the pull request is
    open, and then it writes exactly one. *)
Theorem execute_writes_status_iff_eligible (github : GithubService)
    (config : Config) (payload : HookPayload) (pr : PullRequest)
    (token : jsstring) :
  pull_request payload = Some pr ->
  ((exists st, status_writes (trace (execute github config payload token)) = [st])
   <-> eligible (action payload) pr)
  /\ (status_writes (trace (execute github config payload token)) <> [] ->
      eligible (action payload) pr).
Proof.
  intros Hpr.
  assert (Hel : eligible (action payload) pr ->
                exists st,
                  status_writes (trace (execute github config payload token))
                  = [st]).
  { intros He.
    destruct (execute_eligible github config payload token Hpr He) as [-> _].
    rewrite status_writes_validate. eauto. }
  assert (Hno : ~ eligible (action payload) pr ->
                status_writes (trace (execute github config payload token)) = []).
  { intros Hn. unfold execute. rewrite Hpr.
    destruct (not_actionable (action payload) (Some pr)) eqn:E.
    - reflexivity.
    - apply not_actionable_iff in E. tauto. }
  assert (Hdec : eligible (action payload) pr \/ ~ eligible (action payload) pr).
  { destruct (not_actionable (action payload) (Some pr)) eqn:E.
    - right. intros He. apply not_actionable_iff in He. congruence.
    - left. now apply not_actionable_iff. }
  split; [split; [|exact Hel]|].
  - intros (st & Hst). destruct Hdec as [He|Hn]; [exact He|].
    rewrite (Hno Hn) in Hst. discriminate.
  - intros Hne. destruct Hdec as [He|Hn]; [exact He|].
    now apply Hno in Hn.
Qed.

Lemma execute_writes_status_iff_eligible_witness :
  ((exists st,
       status_writes
         (trace (execute failing_fetch_service no_config
                   (sample_payload (js "Fix bug") (js "Fixes #42")) (js "token")))
       = [st])
   <-> eligible (js "opened") (sample_pull_request (js "Fix bug") (js "Fixes #42")))
  /\ (status_writes
        (trace (execute failing_fetch_service no_config
                  (sample_payload (js "Fix bug") (js "Fixes #42")) (js "token")))
      <> [] ->
      eligible (js "opened") (sample_pull_request (js "Fix bug") (js "Fixes #42"))).
Proof.
  apply (execute_writes_status_iff_eligible failing_fetch_service no_config
           (sample_payload (js "Fix bug") (js "Fixes #42"))
           (pr := sample_pull_request (js "Fix bug") (js "Fixes #42"))
           (js "token")).
  reflexivity.
Defined.

(** X11: for an eligible event [execute] ends as its status write ends:
    it returns when the write is accepted and throws the error of the
    write when it is refused.  No failure of a rule and no failure of the
    fetch makes it throw. *)
Theorem execute_ends_as_status_write (github : GithubService)
    (config : Config) (payload : HookPayload) (pr : PullRequest)
    (token : jsstring) :
  pull_request payload = Some pr ->
  eligible (action payload) pr ->
  exists st,
    status_writes (trace (execute github config payload token)) = [st]
    /\ outcome (execute github config payload token)
       = ends_as (setCommitStatus github (login (owner (repository payload)))
                    (name (repository payload)) (sha (head pr)) st token).
Proof.
  intros Hpr He.
  destruct (execute_eligible github config payload token Hpr He) as [-> ->].
  rewrite status_writes_validate. eexists. split; [reflexivity|].
  rewrite validate_closed. unfold outcome. cbn [snd].
  now destruct (setCommitStatus _ _ _ _ _ _).
Qed.

Lemma execute_ends_as_status_write_witness :
  exists st,
    status_writes
      (trace (execute failing_fetch_service no_config
                (sample_payload (js "Fix bug") (js "Fixes #42")) (js "token")))
    = [st]
    /\ outcome (execute failing_fetch_service no_config
                  (sample_payload (js "Fix bug") (js "Fixes #42")) (js "token"))
       = ends_as (setCommitStatus failing_fetch_service (js "zalando")
                    (js "zappr") (js "c0ffee") st (js "token")).
Proof.
  apply (execute_ends_as_status_write failing_fetch_service no_config
           (sample_payload (js "Fix bug") (js "Fixes #42"))
           (pr := sample_pull_request (js "Fix bug") (js "Fixes #42"))
           (js "token")).
  - reflexivity.
  - split; [simpl; tauto|reflexivity].
Defined.

(** X12: every call [validate] makes goes to the repository of the
    event, by the login of its owner and its name, with the token it was
    given, and the status is written to the head commit of the pull
    request. *)
Theorem validate_calls_target_the_event (github : GithubService)
    (config : Config) (pr : PullRequest) (repo : Repository) (token : jsstring) :
  Forall (call_targets (login (owner repo)) (name repo) (sha (head pr)) token)
         (trace (validate github config pr repo token)).
Proof.
  rewrite validate_closed. unfold trace. cbn [fst].
  destruct (title_outcome config pr); repeat constructor.
Qed.

(** ** Absent entries of the configuration *)

Lemma written_out_title (config : Config) (pr : PullRequest) :
  title_outcome (written_out config) pr = title_outcome config pr.
Proof.
  unfold title_outcome, written_out.
  destruct config as [[[t b tp]|]]; [|reflexivity].
  destruct t as [[[[[[|]|] [n|]]|]]|]; reflexivity.
Qed.

Lemma written_out_body (config : Config) (pr : PullRequest) :
  body_outcome (written_out config) pr = body_outcome config pr.
Proof.
  unfold body_outcome, written_out.
  destruct config as [[[t b tp]|]]; [|reflexivity].
  destruct b as [[[[[[|]|] [n|]]|] [u|] [i|]]|]; reflexivity.
Qed.

Lemma written_out_template (github : GithubService) (config : Config)
    (pr : PullRequest) (repo : Repository) (token : jsstring) :
  template_outcome github (written_out config) pr repo token
  = template_outcome github config pr repo token.
Proof.
  unfold template_outcome, written_out. rewrite !validate_template_closed.
  destruct config as [[[t b tp]|]]; [|reflexivity].
  destruct tp as [[[[|]|]]|]; reflexivity.
Qed.

(** X13: an absent entry of the configuration is its default: [validate]
    does the same for a configuration and for the one that writes every
    entry out, with the switches of the title and the body on, the
    thresholds at 8 and [was-adjusted] off where they were absent. *)
Theorem validate_written_out_configuration (github : GithubService)
    (config : Config) (pr : PullRequest) (repo : Repository) (token : jsstring) :
  validate github (written_out config) pr repo token
  = validate github config pr repo token.
Proof.
  rewrite !validate_closed.
  now rewrite written_out_title, written_out_body, written_out_template.
Qed.

(** ** The sub-checks of the body together *)

(** X14: enabling more sub-checks never turns a body that passes into one
    that fails: with the same required length, a body that passes under a
    configuration passes under every configuration that enables at least
    the same sub-checks. *)
Theorem validate_body_more_checks (body : jsstring)
    (checks checks' : option BodyChecks) :
  body_required_length checks' = body_required_length checks ->
  (forall n, sub_check_enabled checks n = true ->
             sub_check_enabled checks' n = true) ->
  _validateBody body checks = Normal tt ->
  _validateBody body checks' = Normal tt.
Proof.
  intros Hlen Hmore. rewrite !validate_body_closed.
  destruct (existsb _ body_checks_order) eqn:E; [intros _|discriminate].
  apply existsb_exists in E. destruct E as (n & Hn & E).
  apply andb_prop in E. destruct E as [He Hr].
  assert (E' : existsb (fun n => sub_check_enabled checks' n
                                 && sub_check_result body checks' n)
                 body_checks_order = true).
  { apply existsb_exists. exists n. split; [exact Hn|].
    rewrite (Hmore n He). simpl. rewrite <- Hr.
    destruct n; simpl; try reflexivity. now rewrite Hlen. }
  now rewrite E'.
Qed.

Lemma validate_body_more_checks_witness :
  _validateBody (js "Fixes #42")
    (Some (mkBodyChecks None (Some true) (Some true)))
  = Normal tt.
Proof.
  apply (validate_body_more_checks (js "Fixes #42")
           (Some (mkBodyChecks (Some (mkMinimumLength (Some false) None))
                               (Some false) (Some true)))
           (Some (mkBodyChecks None (Some true) (Some true)))).
  - reflexivity.
  - intros [| | |]; simpl; congruence.
  - vm_compute. reflexivity.
Defined.

(** X15: with the three sub-checks disabled the body fails with a reason
    that names no check: the message ends in [undefined], for every body
    and every required length. *)
Theorem validate_body_no_check_message (body : jsstring) (len : option Z) :
  _validateBody body
    (Some (mkBodyChecks (Some (mkMinimumLength (Some false) len))
                        (Some false) (Some false)))
  = Throw (Error (js "PR's body failed check undefined")).
Proof. rewrite validate_body_closed. reflexivity. Qed.

(** ** A pull request without a title *)

Lemma validate_title_closed (title : jsstring) (checks : option TitleChecks) :
  _validateTitle title checks
  = if title_check_enabled checks
       && negb (isLongEnough title (title_required_length checks))
    then Throw (Error (js "PR's title is too short ("
                         ++ number_to_string (js_length title) ++ js "/"
                         ++ number_to_string (title_required_length checks)
                         ++ js ")"))
    else Normal tt.
Proof.
  unfold _validateTitle.
  replace (default true
             (enabled (default no_minimum_length
                         (title_minimum_length (default no_title_checks checks)))))
    with (title_check_enabled checks)
    by (destruct checks as [[[[[?|] ?]|]]|]; reflexivity).
  replace (default DEFAULT_REQUIRED_LENGTH
             (length (default no_minimum_length
                        (title_minimum_length (default no_title_checks checks)))))
    with (title_required_length checks)
    by (destruct checks as [[[[? [?|]]|]]|]; reflexivity).
  reflexivity.
Qed.

(** X16: a pull request whose title is absent or empty, checked with the
    length check of the title enabled and a required length that is a
    safe integer and not negative, gets the failure of the title, with
    length 0 and the required length in its description, and the template
    is not fetched: the status write is the only call. *)
Theorem validate_without_title (github : GithubService) (config : Config)
    (pr : PullRequest) (repo : Repository) (token : jsstring) :
  default [] (title pr) = [] ->
  title_check_enabled (configured_title_checks config) = true ->
  (0 <= title_required_length (configured_title_checks config))%Z ->
  is_safe_integer (title_required_length (configured_title_checks config)) ->
  trace (validate github config pr repo token)
  = [SetCommitStatus (login (owner repo)) (name repo) (sha (head pr))
       (status (js "PR's title is too short (0/"
                  ++ number_to_string
                       (title_required_length (configured_title_checks config))
                  ++ js ")")
               (Some (js "failure")))
       token].
Proof.
  intros Ht He Hr _. rewrite validate_closed. unfold trace. cbn [fst].
  assert (E : title_outcome config pr
              = Throw (Error (js "PR's title is too short (0/"
                                ++ number_to_string
                                     (title_required_length
                                        (configured_title_checks config))
                                ++ js ")"))).
  { unfold title_outcome. fold (configured_title_checks config).
    rewrite Ht, validate_title_closed, He. unfold isLongEnough.
    change (js_length []) with 0%Z.
    destruct (Z.gtb_spec 0 (title_required_length (configured_title_checks config)))
      as [Hgt|Hle]; [lia|reflexivity]. }
  rewrite E. reflexivity.
Qed.

Lemma validate_without_title_witness :
  trace (validate failing_fetch_service no_config
           (mkPullRequest None (Some (js "Fixes #42")) (mkHead (js "c0ffee"))
                          42 (js "open"))
           sample_repository (js "token"))
  = [SetCommitStatus (js "zalando") (js "zappr") (js "c0ffee")
       (status (js "PR's title is too short (0/"
                  ++ number_to_string
                       (title_required_length (configured_title_checks no_config))
                  ++ js ")")
               (Some (js "failure")))
       (js "token")].
Proof.
  apply (validate_without_title failing_fetch_service no_config
           (mkPullRequest None (Some (js "Fixes #42")) (mkHead (js "c0ffee"))
                          42 (js "open"))
           sample_repository (js "token")).
  - reflexivity.
  - reflexivity.
  - vm_compute. discriminate.
  - vm_compute. discriminate.
Defined.

(** ** An issue reference set off by spaces *)

Lemma split_no_sep (sep : code_unit) (s : jsstring) :
  ~ In sep s -> split sep s = [s].
Proof.
  induction s as [|c s IH]; simpl; intros Hn; [reflexivity|].
  destruct (N.eqb_spec c sep) as [->|Hne]; [tauto|].
  rewrite IH by tauto. reflexivity.
Qed.

Lemma forallb_In {A} (f : A -> bool) (l : list A) (x : A) :
  forallb f l = true -> In x l -> f x = true.
Proof. intros H. now apply forallb_forall. Qed.

Lemma issue_reference_has_no_space (tok : jsstring) :
  is_issue_reference tok -> ~ In SPACE tok.
Proof.
  intros (prefix & digits & -> & Hpre & _ & Hd) Hin.
  apply in_app_or in Hin. destruct Hin as [Hin|[Hin|Hin]].
  - destruct Hpre as [->|(o & r & -> & _ & _ & Ho & Hr)]; [destruct Hin|].
    apply in_app_or in Hin. destruct Hin as [Hin|[Hin|Hin]].
    + apply (forallb_In _ _ _ Ho) in Hin. discriminate.
    + discriminate.
    + apply (forallb_In _ _ _ Hr) in Hin. discriminate.
  - discriminate.
  - apply (forallb_In _ _ _ Hd) in Hin. discriminate.
Qed.

Lemma piece_between_spaces (a tok b : jsstring) :
  ends_in_space a -> begins_with_space b -> ~ In SPACE tok ->
  In tok (split SPACE (a ++ tok ++ b)).
Proof.
  intros Ha Hb Hn.
  assert (Hright : In tok (split SPACE (tok ++ b))).
  { destruct Hb as [->|(b' & ->)].
    - rewrite app_nil_r, split_no_sep by exact Hn. now left.
    - rewrite split_app_sep, split_no_sep by exact Hn. now left. }
  destruct Ha as [->|(a' & ->)]; [exact Hright|].
  rewrite <- app_assoc. simpl. rewrite split_app_sep.
  apply in_or_app. now right.
Qed.

(** X17: an issue reference that stands between spaces, or at the
    beginning or the end of the body, is found, whatever the rest of the
    body holds. *)
Theorem contains_issue_number_between_spaces (a tok b : jsstring) :
  is_issue_reference tok -> ends_in_space a -> begins_with_space b ->
  containsIssueNumber (a ++ tok ++ b) = true.
Proof.
  intros Ht Ha Hb. unfold containsIssueNumber.
  apply contains_pattern_spec. exists tok. split.
  - apply piece_between_spaces; auto. now apply issue_reference_has_no_space.
  - now apply issue_pattern_spec.
Qed.

Lemma contains_issue_number_between_spaces_witness :
  containsIssueNumber
    ((js "Closes" ++ [SPACE]) ++ js "zalando/zappr#42" ++ (SPACE :: js "at last"))
  = true.
Proof.
  apply (@contains_issue_number_between_spaces
           (js "Closes" ++ [SPACE]) (js "zalando/zappr#42") (SPACE :: js "at last")).
  - exists (js "zalando/zappr"), (js "42"). split; [reflexivity|].
    split; [|split; [discriminate|reflexivity]].
    right. exists (js "zalando"), (js "zappr").
    split; [reflexivity|]. split; [discriminate|]. split; [discriminate|].
    split; reflexivity.
  - right. exists (js "Closes"). reflexivity.
  - right. exists (js "at last"). reflexivity.
Defined.
